(** * California groundwater wells: [scripts/process_wells.py]

    A shallow embedding of the batch job that turns the DWR well
    completion CSV into per-county JSON documents, a county summary and a
    spatial index, together with the properties of its specification.

    Modelling conventions.
    - A Python [str] is a Rocq [string] whose characters are code points
      below 256 (the Latin-1 range); the Unicode tables of [str.strip],
      [str.lower], [int] and [float] are written out for that range.
    - A Python [float] is a [pyfloat]: an IEEE-754 binary64 value, finite
      values carried by the rational they denote.  Conversions round to
      nearest, ties to even, in exact integer arithmetic.
    - A Python [int] is a [Z]; counters and lengths are [nat].
    - Exceptions are values of [exn], threaded by the error monad [res].
    - A row produced by [csv.DictReader] is a finite map from column name
      to [option string]: a column missing from the header is an absent
      key, a cell missing from a short line is [None] (the reader's
      [restval]).
    - Progress messages printed on the console are not modelled; the
      counters they report are. *)

From Stdlib Require Import ZArith QArith Qround Qabs Qpower Lqa Lia Ascii String.
From stdpp Require Import gmap strings list sorting.

Local Open Scope Z_scope.
Local Open Scope string_scope.

(** ** Exceptions and the error monad *)

Inductive exn : Set :=
  | ValueError
  | TypeError
  | OverflowError
  | AttributeError
  | IndexError
  | ZeroDivisionError.

Inductive res (A : Type) : Type :=
  | Ok (a : A)
  | Raise (e : exn).
Arguments Ok {A} a.
Arguments Raise {A} e.

#[global] Instance res_ret : MRet res := fun A a => Ok a.
#[global] Instance res_bind : MBind res := fun A B f m =>
  match m with
  | Ok a => f a
  | Raise e => Raise e
  end.

(** [try: body  except (e1, e2, ...): handler] *)
Definition try_except {A} (body : res A) (caught : exn -> bool)
    (handler : res A) : res A :=
  match body with
  | Ok a => Ok a
  | Raise e => if caught e then handler else Raise e
  end.

(** [except (ValueError, TypeError)] *)
Definition ValueError_or_TypeError (e : exn) : bool :=
  match e with
  | ValueError | TypeError => true
  | _ => false
  end.

(** [except (ValueError, IndexError)] *)
Definition ValueError_or_IndexError (e : exn) : bool :=
  match e with
  | ValueError | IndexError => true
  | _ => false
  end.

(** ** Python strings *)

Module PyStr.

Definition code (c : ascii) : N := Ascii.N_of_ascii c.

(** [Py_UNICODE_ISSPACE] on the Latin-1 range: the set used by
    [str.strip()] and [str.isspace()]. *)
Definition unicode_isspace (c : ascii) : bool :=
  let n := code c in
  ((9 <=? n) && (n <=? 13) || (28 <=? n) && (n <=? 32)
   || (n =? 133) || (n =? 160))%N.

(** [Py_ISSPACE]: the C-locale set used by [int] and [float] once the
    text has been transliterated to ASCII. *)
Definition ascii_isspace (c : ascii) : bool :=
  let n := code c in
  ((9 <=? n) && (n <=? 13) || (n =? 32))%N.

Definition isdigit (c : ascii) : bool :=
  let n := code c in ((48 <=? n) && (n <=? 57))%N.

Definition digit_value (c : ascii) : Z := Z.of_N (code c) - 48.

Fixpoint lstrip_with (sp : ascii -> bool) (s : string) : string :=
  match s with
  | String c s' => if sp c then lstrip_with sp s' else s
  | EmptyString => EmptyString
  end.

Fixpoint rstrip_with (sp : ascii -> bool) (s : string) : string :=
  match s with
  | String c s' =>
      match rstrip_with sp s' with
      | EmptyString => if sp c then EmptyString else String c EmptyString
      | r => String c r
      end
  | EmptyString => EmptyString
  end.

(** [s.strip()] *)
Definition strip (s : string) : string :=
  rstrip_with unicode_isspace (lstrip_with unicode_isspace s).

(** Truth value of a string: non-empty. *)
Definition truthy (s : string) : bool :=
  match s with
  | EmptyString => false
  | String _ _ => true
  end.

(** [c.lower()] on the Latin-1 range: A-Z, and the accented capitals
    U+00C0..U+00DE except the multiplication sign U+00D7. *)
Definition lower_char (c : ascii) : ascii :=
  let n := code c in
  if ((65 <=? n) && (n <=? 90)
      || (192 <=? n) && (n <=? 222) && negb (n =? 215))%N
  then Ascii.ascii_of_N (n + 32) else c.

(** [s.lower()] *)
Fixpoint lower (s : string) : string :=
  match s with
  | String c s' => String (lower_char c) (lower s')
  | EmptyString => EmptyString
  end.

(** [s.replace(old, new)] for a pattern [old] of one character, as at
    both call sites of the program. *)
Fixpoint replace (old : ascii) (new : string) (s : string) : string :=
  match s with
  | String c s' =>
      if Ascii.eqb c old then new ++ replace old new s'
      else String c (replace old new s')
  | EmptyString => EmptyString
  end.

(** [sep in s] for a one-character [sep]. *)
Fixpoint contains (sep : ascii) (s : string) : bool :=
  match s with
  | String c s' => Ascii.eqb c sep || contains sep s'
  | EmptyString => false
  end.

(** [s.split(sep)] for a one-character [sep]: always at least one part. *)
Fixpoint split (sep : ascii) (s : string) : list string :=
  match s with
  | String c s' =>
      if Ascii.eqb c sep then EmptyString :: split sep s'
      else match split sep s' with
           | p :: ps => String c p :: ps
           | [] => [String c EmptyString]
           end
  | EmptyString => [EmptyString]
  end.

(** [s[:n]] *)
Fixpoint take (n : nat) (s : string) : string :=
  match n, s with
  | S n', String c s' => String c (take n' s')
  | _, _ => EmptyString
  end.

(** [_PyUnicode_TransformDecimalAndSpaceToASCII]: before [int] and [float]
    read a string, the non-ASCII white space (U+0085, U+00A0 in this
    range) becomes a blank.  No other character of the range is a decimal
    digit, so the rest is left alone and is refused by the parsers. *)
Definition space_to_ascii_char (c : ascii) : ascii :=
  let n := code c in
  if ((n =? 133) || (n =? 160))%N then " "%char else c.

Fixpoint space_to_ascii (s : string) : string :=
  match s with
  | String c s' => String (space_to_ascii_char c) (space_to_ascii s')
  | EmptyString => EmptyString
  end.

Definition strip_ascii (s : string) : string :=
  rstrip_with ascii_isspace (lstrip_with ascii_isspace s).

(** Longest prefix of decimal digits, and the rest. *)
Fixpoint span_digits (s : string) : string * string :=
  match s with
  | String c s' =>
      if isdigit c then
        let '(d, r) := span_digits s' in (String c d, r)
      else (EmptyString, s)
  | EmptyString => (EmptyString, EmptyString)
  end.

Fixpoint digits_value_from (acc : Z) (s : string) : Z :=
  match s with
  | String c s' => digits_value_from (10 * acc + digit_value c) s'
  | EmptyString => acc
  end.

Definition digits_value (s : string) : Z := digits_value_from 0 s.

(** Optional sign: [true] for a minus. *)
Definition split_sign (s : string) : bool * string :=
  match s with
  | String "-" r => (true, r)
  | String "+" r => (false, r)
  | _ => (false, s)
  end.

(** Underscores in numeric literals: each one must stand between two
    digits; they are removed.  [prev] is the previous character. *)
Fixpoint drop_underscores_from (prev : option ascii) (s : string)
    : option string :=
  match s with
  | String c s' =>
      if Ascii.eqb c "_" then
        match prev with
        | Some p => if isdigit p then drop_underscores_from (Some c) s'
                    else None
        | None => None
        end
      else
        let ok := match prev with
                  | Some p => negb (Ascii.eqb p "_") || isdigit c
                  | None => true
                  end in
        if ok then
          match drop_underscores_from (Some c) s' with
          | Some r => Some (String c r)
          | None => None
          end
        else None
  | EmptyString =>
      match prev with
      | Some p => if Ascii.eqb p "_" then None else Some EmptyString
      | None => Some EmptyString
      end
  end.

Definition drop_underscores (s : string) : option string :=
  drop_underscores_from None s.

End PyStr.

(** ** Python floats and integers *)

Module PyNum.

Local Open Scope Z_scope.

(** A binary64 value.  [FFin q] is the finite value [q] (with [FFin 0]
    the positive zero); [FNegZero] is [-0.0]. *)
Inductive pyfloat : Type :=
  | FNan
  | FInf (neg : bool)
  | FNegZero
  | FFin (q : Q).

Definition pow2 (x : Z) : Q := Qpower 2 x.
Definition pow10 (x : Z) : Q := Qpower 10 x.

(** Nearest integer, ties to the even one. *)
Definition Qround_half_even (q : Q) : Z :=
  let f := Qfloor q in
  match Qcompare (q - inject_Z f) (1 # 2) with
  | Lt => f
  | Gt => f + 1
  | Eq => if Z.even f then f else f + 1
  end.

(** For [q > 0], the [e] with [2^e <= q < 2^(e+1)]. *)
Definition Qlog2_floor (q : Q) : Z :=
  if Qle_bool 1 q then Z.log2 (Qfloor q)
  else - Z.log2_up (Qceiling (/ q)).

Definition signed_zero (neg : bool) : pyfloat :=
  if neg then FNegZero else FFin 0.

(** Round the magnitude [q >= 0], with sign [neg], to binary64: 53 bits
    of precision, least exponent [-1074], overflow to infinity at
    [2^1024]. *)
Definition b64_of_Q (neg : bool) (q : Q) : pyfloat :=
  if Qle_bool q 0 then signed_zero neg
  else
    let e := Qlog2_floor q in
    let x := Z.max (e - 52) (-1074) in
    let m := Qround_half_even (q / pow2 x) in
    let v := Qred (inject_Z m * pow2 x) in
    if m =? 0 then signed_zero neg
    else if Qle_bool (pow2 1024) v then FInf neg
    else FFin (if neg then Qopp v else v).

(** *** [float(s)] *)

(** The decimal literal [digits [. digits] [e [sign] digits]], read up to
    the end of the string: sign, digit string and power of ten. *)
Definition parse_decimal (s : string) : option (bool * Z * Z) :=
  let '(neg, s1) := PyStr.split_sign s in
  let '(ip, s2) := PyStr.span_digits s1 in
  let '(fp, s3) :=
    match s2 with
    | String "." r => PyStr.span_digits r
    | _ => (EmptyString, s2)
    end in
  if negb (PyStr.truthy ip) && negb (PyStr.truthy fp) then None
  else
    let mant := PyStr.digits_value (ip ++ fp) in
    let frac := Z.of_nat (String.length fp) in
    match s3 with
    | EmptyString => Some (neg, mant, - frac)
    | String c r =>
        if Ascii.eqb c "e" || Ascii.eqb c "E" then
          let '(eneg, r1) := PyStr.split_sign r in
          let '(ed, r2) := PyStr.span_digits r1 in
          if PyStr.truthy ed && negb (PyStr.truthy r2) then
            let ev := PyStr.digits_value ed in
            Some (neg, mant, (if eneg then - ev else ev) - frac)
          else None
        else None
    end.

(** ASCII lower case, as the C code compares the special names. *)
Definition ascii_tolower (c : ascii) : ascii :=
  let n := PyStr.code c in
  if ((65 <=? n) && (n <=? 90))%N then Ascii.ascii_of_N (n + 32) else c.

Fixpoint ascii_lower (s : string) : string :=
  match s with
  | String c s' => String (ascii_tolower c) (ascii_lower s')
  | EmptyString => EmptyString
  end.

(** [inf], [infinity] and [nan], in any case, with an optional sign. *)
Definition parse_inf_or_nan (s : string) : option pyfloat :=
  let '(neg, r) := PyStr.split_sign s in
  let l := ascii_lower r in
  if String.eqb l "inf" || String.eqb l "infinity" then Some (FInf neg)
  else if String.eqb l "nan" then Some FNan
  else None.

Definition float_of_decimal (d : bool * Z * Z) : pyfloat :=
  let '(neg, mant, e10) := d in
  b64_of_Q neg (inject_Z mant * pow10 e10).

(** [float(s)] for a string [s]; [ValueError] when [s] is not a float
    literal. *)
Definition py_float (s : string) : res pyfloat :=
  let t := PyStr.strip_ascii (PyStr.space_to_ascii s) in
  match PyStr.drop_underscores t with
  | None => Raise ValueError
  | Some u =>
      match parse_decimal u with
      | Some d => Ok (float_of_decimal d)
      | None =>
          match parse_inf_or_nan u with
          | Some x => Ok x
          | None => Raise ValueError
          end
      end
  end.

(** *** [int(s)] *)

(** [sys.int_info.default_max_str_digits] *)
Definition int_max_str_digits : nat := 4300.

(** [int(s)] in base 10: blanks, sign, digits with single underscores
    between them, blanks. *)
Definition py_int (s : string) : res Z :=
  let t := PyStr.strip_ascii (PyStr.space_to_ascii s) in
  let '(neg, r) := PyStr.split_sign t in
  match PyStr.drop_underscores r with
  | None => Raise ValueError
  | Some u =>
      let '(d, rest) := PyStr.span_digits u in
      if PyStr.truthy d && negb (PyStr.truthy rest)
         && (String.length d <=? int_max_str_digits)%nat
      then Ok (if neg then - PyStr.digits_value d else PyStr.digits_value d)
      else Raise ValueError
  end.

(** *** Conversions and arithmetic *)

(** [int(x)] for a float [x]: truncation toward zero. *)
Definition py_int_of_float (x : pyfloat) : res Z :=
  match x with
  | FNan => Raise ValueError
  | FInf _ => Raise OverflowError
  | FNegZero => Ok 0
  | FFin q => Ok (Z.quot (Qnum q) (Z.pos (Qden q)))
  end.

(** [round(x)] for a float [x]: the nearest integer, ties to even. *)
Definition py_round (x : pyfloat) : res Z :=
  match x with
  | FNan => Raise ValueError
  | FInf _ => Raise OverflowError
  | FNegZero => Ok 0
  | FFin q => Ok (Qround_half_even q)
  end.

(** [round(x, ndigits)] for a float [x]: the value is written with
    [ndigits] correctly rounded decimals and read back. *)
Definition py_round_ndigits (x : pyfloat) (ndigits : Z) : res pyfloat :=
  match x with
  | FFin q =>
      if 323 <? ndigits then Ok x
      else
        let neg := Qle_bool q 0 && negb (Qle_bool 0 q) in
        if ndigits <? -308 then Ok (signed_zero neg)
        else
          let k := Qround_half_even (Qabs q * pow10 ndigits) in
          match b64_of_Q neg (inject_Z k * pow10 (- ndigits)) with
          | FInf _ => Raise OverflowError
          | r => Ok r
          end
  | _ => Ok x
  end.

(** [a / b] for integers [a] and [b]: the correctly rounded quotient. *)
Definition py_truediv (a b : Z) : res pyfloat :=
  if b =? 0 then Raise ZeroDivisionError
  else
    let neg := xorb (a <? 0) (b <? 0) in
    match b64_of_Q neg (Z.abs a # Z.to_pos (Z.abs b)) with
    | FInf _ => Raise OverflowError
    | r => Ok r
    end.

(** *** Comparisons *)

(** [n <= x] and [x <= n] for an integer [n] and a float [x]: exact. *)
Definition int_le_float (n : Z) (x : pyfloat) : bool :=
  match x with
  | FNan => false
  | FInf neg => negb neg
  | FNegZero => n <=? 0
  | FFin q => Qle_bool (inject_Z n) q
  end.

Definition float_le_int (x : pyfloat) (n : Z) : bool :=
  match x with
  | FNan => false
  | FInf neg => neg
  | FNegZero => 0 <=? n
  | FFin q => Qle_bool q (inject_Z n)
  end.

(** [x < y] for floats. *)
Definition float_lt (x y : pyfloat) : bool :=
  match x, y with
  | FNan, _ | _, FNan => false
  | FInf nx, FInf ny => nx && negb ny
  | FInf nx, _ => nx
  | _, FInf ny => negb ny
  | FNegZero, FNegZero => false
  | FNegZero, FFin q => negb (Qle_bool q 0)
  | FFin q, FNegZero => negb (Qle_bool 0 q)
  | FFin p, FFin q => negb (Qle_bool q p)
  end.

(** [x <= y] for floats. *)
Definition float_le (x y : pyfloat) : bool :=
  match x, y with
  | FNan, _ | _, FNan => false
  | FInf nx, FInf ny => nx || negb ny
  | FInf nx, _ => nx
  | _, FInf ny => negb ny
  | FNegZero, FNegZero => true
  | FNegZero, FFin q => Qle_bool 0 q
  | FFin q, FNegZero => Qle_bool q 0
  | FFin p, FFin q => Qle_bool p q
  end.

End PyNum.
Export PyNum.

(** ** The program *)

(** *** Rows and records *)

(** One row of [csv.DictReader]. *)
Abbreviation row := (gmap string (option string)).

(** [r.get(k)]: [None] for an absent key and for a [None] cell alike. *)
Definition row_get (r : row) (k : string) : option string :=
  default None (r !! k).

(** [r.get(k, d)]: the default [d] replaces an absent key only. *)
Definition row_get_default (r : row) (k d : string) : option string :=
  default (Some d) (r !! k).

(** The compact well record, after the [None] values are removed: a key
    is in the dictionary exactly when its field is [Some]. *)
Record well : Type := {
  lat : pyfloat;
  lon : pyfloat;
  depth : option Z;
  static : option Z;
  yield : option pyfloat;
  year : option Z
}.




(** *** [parse_float] and [parse_int] *)

(** [float(val) if val and val.strip() else None], under
    [except (ValueError, TypeError)]. *)
Definition parse_float (val : option string) : res (option pyfloat) :=
  try_except
    (match val with
     | Some v =>
         if PyStr.truthy v && PyStr.truthy (PyStr.strip v)
         then x ← py_float v; mret (Some x)
         else mret None
     | None => mret None
     end)
    ValueError_or_TypeError
    (mret None).

(** [int(float(val)) if val and val.strip() else None], under
    [except (ValueError, TypeError)]. *)
Definition parse_int (val : option string) : res (option Z) :=
  try_except
    (match val with
     | Some v =>
         if PyStr.truthy v && PyStr.truthy (PyStr.strip v)
         then x ← py_float v; n ← py_int_of_float x; mret (Some n)
         else mret None
     | None => mret None
     end)
    ValueError_or_TypeError
    (mret None).

(** *** The scan *)

(** [stats['counties'][county]] *)
Record county_entry : Type := {
  cs_count : nat;
  cs_depths : list Z
}.

Record stats : Type := {
  total_records : nat;
  records_with_coords : nat;
  records_with_depth : nat;
  counties : gmap string county_entry
}.

(** The variables the loop updates. *)
Record scan_state : Type := {
  st_stats : stats;
  wells_by_county : gmap string (list well)
}.

Definition initial_state : scan_state :=
  {| st_stats := {| total_records := 0; records_with_coords := 0;
                    records_with_depth := 0; counties := ∅ |};
     wells_by_county := ∅ |}.

(** Truth value of an optional integer: [None] and [0] are false. *)
Definition int_truthy (d : option Z) : bool :=
  match d with
  | Some z => negb (z =? 0)%Z
  | None => false
  end.

(** [a or b] on optional integers. *)
Definition py_or (a b : option Z) : option Z :=
  if int_truthy a then a else b.

(** [32 <= lat <= 42] and [-125 <= lon <= -114] *)
Definition lat_in_envelope (x : pyfloat) : bool :=
  int_le_float 32 x && float_le_int x 42.
Definition lon_in_envelope (x : pyfloat) : bool :=
  int_le_float (-125) x && float_le_int x (-114).

(** The block that extracts the year from [date_str]. *)
Definition extract_year (date_str : option string) : res (option Z) :=
  match date_str with
  | Some d =>
      if PyStr.truthy d && (4 <=? String.length d)%nat then
        try_except
          (if PyStr.contains "/" d then
             let parts := PyStr.split "/" d in
             if (length parts =? 3)%nat then
               match parts !! 2%nat with
               | Some p => y ← py_int p; mret (Some y)
               | None => Raise IndexError
               end
             else mret None
           else if PyStr.contains "-" d then
             y ← py_int (PyStr.take 4 d); mret (Some y)
           else mret None)
          ValueError_or_IndexError
          (mret None)
      else mret None
  | None => mret None
  end.

Definition bump_total (st : scan_state) : scan_state :=
  let s := st_stats st in
  {| st_stats := {| total_records := S (total_records s);
                    records_with_coords := records_with_coords s;
                    records_with_depth := records_with_depth s;
                    counties := counties s |};
     wells_by_county := wells_by_county st |}.

Definition bump_coords (st : scan_state) : scan_state :=
  let s := st_stats st in
  {| st_stats := {| total_records := total_records s;
                    records_with_coords := S (records_with_coords s);
                    records_with_depth := records_with_depth s;
                    counties := counties s |};
     wells_by_county := wells_by_county st |}.

Definition bump_depth (st : scan_state) : scan_state :=
  let s := st_stats st in
  {| st_stats := {| total_records := total_records s;
                    records_with_coords := records_with_coords s;
                    records_with_depth := S (records_with_depth s);
                    counties := counties s |};
     wells_by_county := wells_by_county st |}.

(** The county statistics of the loop body: the entry is created on
    first use, its count grows, and a true [depth] joins its samples. *)
Definition track_county (county : string) (d : option Z)
    (st : scan_state) : scan_state :=
  let s := st_stats st in
  let e := default {| cs_count := 0; cs_depths := [] |}
                   (counties s !! county) in
  let e' := {| cs_count := S (cs_count e);
               cs_depths := match d with
                            | Some z => if int_truthy d
                                        then (cs_depths e ++ [z])%list
                                        else cs_depths e
                            | None => cs_depths e
                            end |} in
  {| st_stats := {| total_records := total_records s;
                    records_with_coords := records_with_coords s;
                    records_with_depth := records_with_depth s;
                    counties := <[county := e']> (counties s) |};
     wells_by_county := wells_by_county st |}.

(** [wells_by_county[county].append(well)] on the [defaultdict(list)]. *)
Definition append_well (county : string) (w : well)
    (st : scan_state) : scan_state :=
  {| st_stats := st_stats st;
     wells_by_county :=
       <[county := (default [] (wells_by_county st !! county) ++ [w])%list]>
         (wells_by_county st) |}.

(** The body of [for row in reader], in the order of the source. *)
Definition process_row (st : scan_state) (r : row) : res scan_state :=
  let st := bump_total st in
  la ← parse_float (row_get r "DECIMALLATITUDE");
  lo ← parse_float (row_get r "DECIMALLONGITUDE");
  match la, lo with
  | Some la, Some lo =>
      if negb (lat_in_envelope la) || negb (lon_in_envelope lo) then Ok st
      else
        let st := bump_coords st in
        total_depth ← parse_int (row_get r "TOTALDRILLDEPTH");
        completed_depth ← parse_int (row_get r "TOTALCOMPLETEDDEPTH");
        let d := py_or completed_depth total_depth in
        let st := if d is Some _ then bump_depth st else st in
        county ← match row_get_default r "COUNTYNAME" "Unknown" with
                 | Some c => Ok (PyStr.strip c)
                 | None => Raise AttributeError
                 end;
        let county := if PyStr.truthy county then county else "Unknown" in
        let st := track_county county d st in
        la5 ← py_round_ndigits la 5;
        lo5 ← py_round_ndigits lo 5;
        sta ← parse_int (row_get r "STATICWATERLEVEL");
        yi ← parse_float (row_get r "WELLYIELD");
        ye ← extract_year (row_get_default r "DATEWORKENDED" "");
        let w := {| lat := la5; lon := lo5; depth := d; static := sta;
                    yield := yi; year := ye |} in
        Ok (append_well county w st)
  | _, _ => Ok st
  end.

(** The loop over the reader; an exception ends the run. *)
Fixpoint scan_from (st : scan_state) (rows : list row) : res scan_state :=
  match rows with
  | [] => Ok st
  | r :: rows' => st' ← process_row st r; scan_from st' rows'
  end.

Definition scan (rows : list row) : res scan_state :=
  scan_from initial_state rows.

(** *** The artifacts *)

(** [sorted(d.items())]: the keys of a dictionary are distinct, so the
    pairs are ordered by key, code point by code point. *)
Definition key_le {V} (a b : string * V) : Prop :=
  String.leb a.1 b.1 = true.

#[global] Instance key_le_dec {V} (a b : string * V) : Decision (key_le a b).
Proof. unfold key_le. apply _. Defined.

Definition sorted_items {V} (m : gmap string V) : list (string * V) :=
  merge_sort key_le (map_to_list m).

(** [min(l)] and [max(l)]: the first least (greatest) item under [<];
    [ValueError] on an empty list. *)
Fixpoint min_from {A} (lt : A -> A -> bool) (cur : A) (l : list A) : A :=
  match l with
  | [] => cur
  | x :: l' => min_from lt (if lt x cur then x else cur) l'
  end.

Fixpoint max_from {A} (lt : A -> A -> bool) (cur : A) (l : list A) : A :=
  match l with
  | [] => cur
  | x :: l' => max_from lt (if lt cur x then x else cur) l'
  end.

Definition py_min {A} (lt : A -> A -> bool) (l : list A) : res A :=
  match l with
  | [] => Raise ValueError
  | x :: l' => Ok (min_from lt x l')
  end.

Definition py_max {A} (lt : A -> A -> bool) (l : list A) : res A :=
  match l with
  | [] => Raise ValueError
  | x :: l' => Ok (max_from lt x l')
  end.

(** [sum(l)] on integers. *)
Definition py_sum (l : list Z) : Z := foldl Z.add 0%Z l.

Fixpoint mapM_res {A B} (f : A -> res B) (l : list A) : res (list B) :=
  match l with
  | [] => Ok []
  | x :: l' => y ← f x; ys ← mapM_res f l'; mret (y :: ys)
  end.

Module Summary.
(** One entry of [counties.json]. *)
Record t : Type := {
  name : string;
  count : nat;
  avgDepth : option Z;
  minDepth : option Z;
  maxDepth : option Z
}.
End Summary.

Module Index.
Record bounds_t : Type := {
  minLat : pyfloat;
  maxLat : pyfloat;
  minLon : pyfloat;
  maxLon : pyfloat
}.
(** One entry of [index.json]. *)
Record t : Type := {
  name : string;
  file : string;
  count : nat;
  bounds : bounds_t
}.
End Index.

(** One county file: the county of the loop, the name of the file and
    the list that is dumped into it. *)
Record county_file : Type := {
  cf_county : string;
  cf_filename : string;
  cf_wells : list well
}.

(** [[w.get('depth') for w in wells if w.get('depth')]] *)
Definition true_depths (wells : list well) : list Z :=
  omap (fun w => if int_truthy (depth w) then depth w else None) wells.

(** One turn of the loop that fills [county_stats]. *)
Definition county_summary (item : string * list well) : res Summary.t :=
  let '(county, wells) := item in
  let depths := true_depths wells in
  avg_depth ←
    match depths with
    | [] => Ok None
    | _ :: _ =>
        m ← py_truediv (py_sum depths) (Z.of_nat (length depths));
        a ← py_round m;
        mret (Some a)
    end;
  min_depth ←
    match depths with
    | [] => Ok None
    | _ :: _ => z ← py_min Z.ltb depths; mret (Some z)
    end;
  max_depth ←
    match depths with
    | [] => Ok None
    | _ :: _ => z ← py_max Z.ltb depths; mret (Some z)
    end;
  Ok {| Summary.name := county;
        Summary.count := length wells;
        Summary.avgDepth := avg_depth;
        Summary.minDepth := min_depth;
        Summary.maxDepth := max_depth |}.

(** [county.lower().replace(' ', '-').replace('.', '')] *)
Definition safe_name (county : string) : string :=
  PyStr.replace "." "" (PyStr.replace " " "-" (PyStr.lower county)).

(** [f"{safe_name}.json"] *)
Definition filename_of (county : string) : string :=
  (safe_name county ++ ".json")%string.

(** One turn of the loop that writes the county files. *)
Definition write_county (item : string * list well) : county_file :=
  let '(county, wells) := item in
  {| cf_county := county;
     cf_filename := filename_of county;
     cf_wells := wells |}.

(** One turn of the loop that fills [index]. *)
Definition index_entry (item : string * list well) : res Index.t :=
  let '(county, wells) := item in
  let lats := lat <$> wells in
  let lons := lon <$> wells in
  min_lat ← py_min float_lt lats;
  max_lat ← py_max float_lt lats;
  min_lon ← py_min float_lt lons;
  max_lon ← py_max float_lt lons;
  Ok {| Index.name := county;
        Index.file := filename_of county;
        Index.count := length wells;
        Index.bounds := {| Index.minLat := min_lat; Index.maxLat := max_lat;
                           Index.minLon := min_lon; Index.maxLon := max_lon |} |}.

(** What a run leaves behind: the counters it reports and the three kinds
    of document it writes. *)
Record output : Type := {
  out_stats : stats;
  counties_json : list Summary.t;
  county_files : list county_file;
  index_json : list Index.t
}.

Definition write_artifacts (st : scan_state) : res output :=
  let items := sorted_items (wells_by_county st) in
  county_stats ← mapM_res county_summary items;
  let files := write_county <$> items in
  index ← mapM_res index_entry items;
  Ok {| out_stats := st_stats st;
        counties_json := county_stats;
        county_files := files;
        index_json := index |}.

(** [process_wells()] on the rows of the CSV file. *)
Definition process_wells (rows : list row) : res output :=
  st ← scan rows;
  write_artifacts st.

(** The documents in the order they are written, and the directory that
    results: a later file of the same name replaces an earlier one. *)
Inductive document : Type :=
  | DSummary (d : list Summary.t)
  | DWells (d : list well)
  | DIndex (d : list Index.t).

Definition writes (o : output) : list (string * document) :=
  ("counties.json", DSummary (counties_json o))
  :: ((fun f => (cf_filename f, DWells (cf_wells f))) <$> county_files o)
  ++ [("index.json", DIndex (index_json o))].

Definition directory (o : output) : gmap string document :=
  foldl (fun m fd => <[fd.1 := fd.2]> m) ∅ (writes o).

(** ** The loop body as normalizer and aggregator *)

(** What the loop body computes from the row alone: [None] when the row
    is skipped, else the county and the record that is appended. *)
Definition normalize_row (r : row) : res (option (string * well)) :=
  la ← parse_float (row_get r "DECIMALLATITUDE");
  lo ← parse_float (row_get r "DECIMALLONGITUDE");
  match la, lo with
  | Some la, Some lo =>
      if negb (lat_in_envelope la) || negb (lon_in_envelope lo) then Ok None
      else
        total_depth ← parse_int (row_get r "TOTALDRILLDEPTH");
        completed_depth ← parse_int (row_get r "TOTALCOMPLETEDDEPTH");
        let d := py_or completed_depth total_depth in
        county ← match row_get_default r "COUNTYNAME" "Unknown" with
                 | Some c => Ok (PyStr.strip c)
                 | None => Raise AttributeError
                 end;
        let county := if PyStr.truthy county then county else "Unknown" in
        la5 ← py_round_ndigits la 5;
        lo5 ← py_round_ndigits lo 5;
        sta ← parse_int (row_get r "STATICWATERLEVEL");
        yi ← parse_float (row_get r "WELLYIELD");
        ye ← extract_year (row_get_default r "DATEWORKENDED" "");
        Ok (Some (county,
                  {| lat := la5; lon := lo5; depth := d; static := sta;
                     yield := yi; year := ye |}))
  | _, _ => Ok None
  end.

(** What the loop body does to the state with that result. *)
Definition aggregate (st : scan_state) (o : option (string * well))
    : scan_state :=
  match o with
  | None => bump_total st
  | Some (county, w) =>
      let st := bump_coords (bump_total st) in
      let st := if depth w is Some _ then bump_depth st else st in
      append_well county w (track_county county (depth w) st)
  end.

(** The accepted rows of a run, in order, with their county. *)
Fixpoint accepted (rows : list row) : res (list (string * well)) :=
  match rows with
  | [] => Ok []
  | r :: rows' =>
      o ← normalize_row r;
      acc ← accepted rows';
      Ok (match o with Some p => p :: acc | None => acc end)
  end.

(** The records of one county among the accepted ones. *)
Definition bucket (c : string) (acc : list (string * well)) : list well :=
  (filter (fun p => p.1 = c) acc).*2.

(** The sum of the sizes of the buckets of a dictionary. *)
Definition total_wells (m : gmap string (list well)) : nat :=
  sum_list_with (fun p => length p.2) (map_to_list m).

(** The state of the scan after [n] rows of which [acc] were accepted. *)
Record represents (n : nat) (acc : list (string * well))
    (st : scan_state) : Prop := {
  rep_total : total_records (st_stats st) = n;
  rep_coords : records_with_coords (st_stats st) = length acc;
  rep_depth :
    records_with_depth (st_stats st)
    = length (filter (fun p => is_Some (depth p.2)) acc);
  rep_wells : forall c,
    wells_by_county st !! c
    = if decide (bucket c acc = []) then None else Some (bucket c acc);
  rep_counties : forall c,
    counties (st_stats st) !! c
    = if decide (bucket c acc = []) then None
      else Some {| cs_count := length (bucket c acc);
                   cs_depths := true_depths (bucket c acc) |};
  rep_sum : total_wells (wells_by_county st) = length acc
}.

(** The test of the loop body on the coordinates of a row. *)
Definition coords_valid (r : row) : bool :=
  match parse_float (row_get r "DECIMALLATITUDE"),
        parse_float (row_get r "DECIMALLONGITUDE") with
  | Ok (Some la), Ok (Some lo) => lat_in_envelope la && lon_in_envelope lo
  | _, _ => false
  end.

(** What an accepted row went through. *)
Record accepted_as (r : row) (c : string) (w : well) : Prop := {
  acc_lat : exists la,
    parse_float (row_get r "DECIMALLATITUDE") = Ok (Some la)
    /\ lat_in_envelope la = true /\ py_round_ndigits la 5 = Ok (lat w);
  acc_lon : exists lo,
    parse_float (row_get r "DECIMALLONGITUDE") = Ok (Some lo)
    /\ lon_in_envelope lo = true /\ py_round_ndigits lo 5 = Ok (lon w);
  acc_depth : exists td cd,
    parse_int (row_get r "TOTALDRILLDEPTH") = Ok td
    /\ parse_int (row_get r "TOTALCOMPLETEDDEPTH") = Ok cd
    /\ depth w = py_or cd td;
  acc_county : exists cell,
    row_get_default r "COUNTYNAME" "Unknown" = Some cell
    /\ c = if PyStr.truthy (PyStr.strip cell) then PyStr.strip cell
           else "Unknown";
  acc_static : parse_int (row_get r "STATICWATERLEVEL") = Ok (static w);
  acc_yield : parse_float (row_get r "WELLYIELD") = Ok (yield w);
  acc_year :
    extract_year (row_get_default r "DATEWORKENDED" "") = Ok (year w)
}.

(** A record whose coordinates lie in the envelope. *)
Definition in_envelope (w : well) : Prop :=
  exists qa qo : Q,
    lat w = FFin qa /\ lon w = FFin qo
    /\ (32 <= qa)%Q /\ (qa <= 42)%Q /\ (-125 <= qo)%Q /\ (qo <= -114)%Q.

(** ** Vocabulary of the specification *)




(** The integer a string parses to, absent when [int] raises. *)
Definition int_or_absent (s : string) : option Z :=
  match py_int s with
  | Ok z => Some z
  | Raise _ => None
  end.

(** A float that is neither infinite nor a NaN nor the negative zero. *)
Definition finite (x : pyfloat) : Prop := exists q, x = FFin q.

(** The greatest binary64 value, [(2^53 - 1) * 2^971]. *)
Definition max_double : Z := ((2 ^ 53 - 1) * 2 ^ 971)%Z.

(** An integer that a binary64 value holds exactly: a significand of at
    most 53 bits times a power of two. *)
Definition int_double (z : Z) : Prop :=
  exists m x : Z, (0 <= x)%Z /\ (Z.abs m < 2 ^ 53)%Z /\ z = (m * 2 ^ x)%Z.

(** The box of an index entry is tight on a list of records: it holds
    every record, and each of its four sides goes through one. *)
Definition tight_bounds (b : Index.bounds_t) (ws : list well) : Prop :=
  (forall w, w ∈ ws ->
     float_le (Index.minLat b) (lat w) = true
     /\ float_le (lat w) (Index.maxLat b) = true
     /\ float_le (Index.minLon b) (lon w) = true
     /\ float_le (lon w) (Index.maxLon b) = true)
  /\ (exists w, w ∈ ws /\ lat w = Index.minLat b)
  /\ (exists w, w ∈ ws /\ lat w = Index.maxLat b)
  /\ (exists w, w ∈ ws /\ lon w = Index.minLon b)
  /\ (exists w, w ∈ ws /\ lon w = Index.maxLon b).

(** The depth values present in a list of records. *)
Definition present_depths (ws : list well) : list Z := omap depth ws.

(** The summary [s] gives the statistics of the depth samples [ds]: no
    statistics for no sample; else the rounded mean ([round(sum / len)]
    in float arithmetic), the least and the greatest sample. *)
Definition depth_statistics (ds : list Z) (s : Summary.t) : Prop :=
  match ds with
  | [] => Summary.avgDepth s = None /\ Summary.minDepth s = None
          /\ Summary.maxDepth s = None
  | _ :: _ =>
      (exists m a, py_truediv (py_sum ds) (Z.of_nat (length ds)) = Ok m
                   /\ py_round m = Ok a /\ Summary.avgDepth s = Some a)
      /\ (exists lo, Summary.minDepth s = Some lo /\ lo ∈ ds
                     /\ Forall (Z.le lo) ds)
      /\ (exists hi, Summary.maxDepth s = Some hi /\ hi ∈ ds
                     /\ Forall (fun d => (d <= hi)%Z) ds)
  end.

(** C2 as it is stated: region by region, the summary gives the
    statistics of the depth values present in the region's records. *)
Definition summary_of_present_depths (out : output) : Prop :=
  Forall2 (fun s f =>
             Summary.name s = cf_county f
             /\ depth_statistics (present_depths (cf_wells f)) s)
          (counties_json out) (county_files out).

(** C1 as it is stated: a present depth is the completed depth whenever
    that field parses, else the drill depth. *)
Definition completed_depth_first (r : row) (w : well) : Prop :=
  forall d, depth w = Some d ->
    match parse_int (row_get r "TOTALCOMPLETEDDEPTH") with
    | Ok (Some cd) => d = cd
    | _ => parse_int (row_get r "TOTALDRILLDEPTH") = Ok (Some d)
    end.

(** ** Sample rows *)

(** A complete row of Kern county. *)
Definition row_kern : row :=
  list_to_map
    [ ("DECIMALLATITUDE", Some "35.5"); ("DECIMALLONGITUDE", Some "-120.25");
      ("TOTALDRILLDEPTH", Some "200"); ("TOTALCOMPLETEDDEPTH", Some "150.0");
      ("STATICWATERLEVEL", Some "40"); ("WELLYIELD", Some "12.5");
      ("DATEWORKENDED", Some "03/15/2010"); ("COUNTYNAME", Some " Kern ") ].

Definition well_kern : well :=
  {| lat := FFin (71 # 2); lon := FFin (-481 # 4); depth := Some 150%Z;
     static := Some 40%Z; yield := Some (FFin (25 # 2));
     year := Some 2010%Z |}.

(** A row whose completed depth is zero and whose drill depth is not. *)
Definition row_completed_zero : row :=
  list_to_map
    [ ("DECIMALLATITUDE", Some "36"); ("DECIMALLONGITUDE", Some "-119");
      ("TOTALDRILLDEPTH", Some "100"); ("TOTALCOMPLETEDDEPTH", Some "0");
      ("COUNTYNAME", Some "Kern") ].

(** A row whose depth is zero, with a blank county. *)
Definition row_zero_depth : row :=
  list_to_map
    [ ("DECIMALLATITUDE", Some "36"); ("DECIMALLONGITUDE", Some "-119");
      ("TOTALDRILLDEPTH", Some "0"); ("COUNTYNAME", Some "  ");
      ("DATEWORKENDED", Some "2010-03-15") ].


(** A row of Kern county with a depth of 100. *)
Definition row_depth_100 : row :=
  list_to_map
    [ ("DECIMALLATITUDE", Some "36.5"); ("DECIMALLONGITUDE", Some "-118.5");
      ("TOTALDRILLDEPTH", Some "100"); ("COUNTYNAME", Some "Kern") ].

(** A row of Kern county with a depth of zero. *)
Definition row_kern_zero : row :=
  list_to_map
    [ ("DECIMALLATITUDE", Some "36"); ("DECIMALLONGITUDE", Some "-119");
      ("TOTALDRILLDEPTH", Some "0"); ("COUNTYNAME", Some "Kern") ].

(** A row outside the envelope, otherwise complete. *)
Definition row_latitude_50 : row :=
  <["DECIMALLATITUDE" := Some "50"]> row_kern.

(** A row with valid coordinates and an infinite drill depth. *)
Definition row_inf_depth : row :=
  list_to_map
    [ ("DECIMALLATITUDE", Some "35.5"); ("DECIMALLONGITUDE", Some "-120.25");
      ("TOTALDRILLDEPTH", Some "inf"); ("COUNTYNAME", Some "Kern") ].

(** A short line: the reader fills the missing county cell with [None]. *)
Definition row_short_line : row :=
  list_to_map
    [ ("DECIMALLATITUDE", Some "35.5"); ("DECIMALLONGITUDE", Some "-120.25");
      ("COUNTYNAME", None) ].

(** A file without a county column. *)
Definition row_no_county_column : row :=
  list_to_map
    [ ("DECIMALLATITUDE", Some "35.5");
      ("DECIMALLONGITUDE", Some "-120.25") ].

Definition sample_rows : list row :=
  [ row_kern; row_latitude_50; row_zero_depth; row_depth_100;
    row_kern_zero; row_no_county_column ].

(** Two Kern rows, with depths 0 and 100. *)
Definition rows_zero_and_100 : list row := [row_kern_zero; row_depth_100].

(** Two regions whose names normalize alike, each with one record. *)
Definition rows_colliding : list row :=
  [ <["COUNTYNAME" := Some "St. Louis"]> row_depth_100;
    <["COUNTYNAME" := Some "St Louis"]> row_kern_zero ].

(** * Properties *)

(** ** Rounding *)

Section Rounding.

Local Open Scope Q_scope.

#[local] Instance Qround_half_even_comp :
  Proper (Qeq ==> eq) Qround_half_even.
Proof.
  intros p q H. unfold Qround_half_even.
  rewrite (Qfloor_comp _ _ H).
  assert (Hc : (p - inject_Z (Qfloor q) ?= 1 # 2)
               = (q - inject_Z (Qfloor q) ?= 1 # 2)) by (by rewrite H).
  by rewrite Hc.
Qed.

Lemma Qround_half_even_cases (q : Q) :
  Qround_half_even q = Qfloor q \/
  (Qround_half_even q = (Qfloor q + 1)%Z /\ 1 # 2 <= q - inject_Z (Qfloor q)).
Proof.
  unfold Qround_half_even.
  destruct (Qcompare_spec (q - inject_Z (Qfloor q)) (1 # 2)) as [E|L|G].
  - destruct (Z.even (Qfloor q)); [by left|right]. split; [done|].
    rewrite E. apply Qle_refl.
  - by left.
  - right. split; [done|]. by apply Qlt_le_weak.
Qed.

(** Rounding to the nearest integer stays between integer bounds. *)
Lemma Qround_half_even_bounds (q : Q) (a b : Z) :
  inject_Z a <= q -> q <= inject_Z b ->
  (a <= Qround_half_even q <= b)%Z.
Proof.
  intros Ha Hb.
  assert (Hfa : (a <= Qfloor q)%Z).
  { rewrite <- (Qfloor_Z a). by apply Qfloor_resp_le. }
  assert (Hfb : (Qfloor q <= b)%Z).
  { rewrite <- (Qfloor_Z b). by apply Qfloor_resp_le. }
  destruct (Qround_half_even_cases q) as [->|[-> Hr]]; [lia|].
  split; [lia|].
  destruct (Z.eq_dec (Qfloor q) b) as [E|N]; [|lia].
  exfalso. rewrite E in Hr.
  assert (q - inject_Z b <= 0) by lra.
  assert (0 < 1 # 2) by reflexivity.
  lra.
Qed.

Lemma Qlog2_floor_binade (q : Q) (e : Z) :
  (0 <= e)%Z -> inject_Z (2 ^ e) <= q -> q < inject_Z (2 ^ (e + 1)) ->
  Qlog2_floor q = e.
Proof.
  intros He Hlo Hhi. unfold Qlog2_floor.
  assert (H1 : 1 <= q).
  { eapply Qle_trans; [|exact Hlo].
    change 1 with (inject_Z 1). rewrite <- Zle_Qle.
    pose proof (Z.pow_pos_nonneg 2 e). lia. }
  rewrite (proj2 (Qle_bool_iff 1 q) H1).
  assert (Hfa : (2 ^ e <= Qfloor q)%Z).
  { rewrite <- (Qfloor_Z (2 ^ e)). by apply Qfloor_resp_le. }
  assert (Hfb : (Qfloor q < 2 ^ (e + 1))%Z).
  { apply Z.lt_nge. intros Hc.
    apply (Qlt_not_le _ _ Hhi).
    eapply Qle_trans; [|apply Qfloor_le].
    by rewrite <- Zle_Qle. }
  apply Z.log2_unique; [done|]. split; [done|].
  by replace (Z.succ e) with (e + 1)%Z by lia.
Qed.

Lemma pow2_neg (n : Z) :
  (0 <= n)%Z -> pow2 (- n) == / inject_Z (2 ^ n).
Proof.
  intros Hn. unfold pow2. rewrite Qpower_opp.
  change (2 : Q) with (inject_Z 2). by rewrite <- Zpower_Qpower.
Qed.

Lemma pow2_nonneg (n : Z) :
  (0 <= n)%Z -> pow2 n == inject_Z (2 ^ n).
Proof.
  intros Hn. unfold pow2.
  change (2 : Q) with (inject_Z 2). by rewrite <- Zpower_Qpower.
Qed.

Lemma pow10_nonneg (n : Z) :
  (0 <= n)%Z -> pow10 n == inject_Z (10 ^ n).
Proof.
  intros Hn. unfold pow10.
  change (10 : Q) with (inject_Z 10). by rewrite <- Zpower_Qpower.
Qed.

Lemma pow10_neg (n : Z) :
  (0 <= n)%Z -> pow10 (- n) == / inject_Z (10 ^ n).
Proof.
  intros Hn. unfold pow10. rewrite Qpower_opp.
  change (10 : Q) with (inject_Z 10). by rewrite <- Zpower_Qpower.
Qed.

(** Scaling by a positive integer and rounding keeps integer bounds. *)
Lemma round_scaled_bounds (q : Q) (a b k : Z) :
  (0 < k)%Z -> inject_Z a <= q -> q <= inject_Z b ->
  (a * k <= Qround_half_even (q * inject_Z k) <= b * k)%Z.
Proof.
  intros Hk Ha Hb.
  assert (0 <= inject_Z k).
  { change 0 with (inject_Z 0). rewrite <- Zle_Qle. lia. }
  apply Qround_half_even_bounds; rewrite inject_Z_mult.
  - by apply Qmult_le_compat_r.
  - by apply Qmult_le_compat_r.
Qed.

(** Dividing an integer between [a * k] and [b * k] by [k]. *)
Lemma unscale_bounds (m a b k : Z) :
  (0 < k)%Z -> (a * k <= m <= b * k)%Z ->
  inject_Z a <= inject_Z m / inject_Z k /\
  inject_Z m / inject_Z k <= inject_Z b.
Proof.
  intros Hk [Hlo Hhi].
  assert (0 < inject_Z k).
  { change 0 with (inject_Z 0). rewrite <- Zlt_Qlt. lia. }
  split.
  - apply Qle_shift_div_l; [done|].
    rewrite <- inject_Z_mult, <- Zle_Qle. done.
  - apply Qle_shift_div_r; [done|].
    rewrite <- inject_Z_mult, <- Zle_Qle. done.
Qed.

(** A magnitude between two integers of one binade, where every integer
    is a binary64 value, rounds to a finite value between them. *)
Lemma b64_of_Q_binade (neg : bool) (q : Q) (a b e : Z) :
  (0 <= e <= 52)%Z -> (2 ^ e <= a)%Z -> (b < 2 ^ (e + 1))%Z ->
  inject_Z a <= q -> q <= inject_Z b ->
  exists v, b64_of_Q neg q = FFin (if neg then - v else v)
            /\ inject_Z a <= v /\ v <= inject_Z b.
Proof.
  intros He Ha Hb Hqa Hqb.
  assert (Hpe : (0 < 2 ^ e)%Z) by (apply Z.pow_pos_nonneg; lia).
  assert (Hq0 : 0 < q).
  { eapply Qlt_le_trans; [|exact Hqa].
    change 0 with (inject_Z 0). rewrite <- Zlt_Qlt. lia. }
  unfold b64_of_Q.
  destruct (Qle_bool q 0) eqn:Hz.
  { apply Qle_bool_iff in Hz. lra. }
  rewrite (Qlog2_floor_binade q e); [|lia| |].
  2: { eapply Qle_trans; [|exact Hqa]. by rewrite <- Zle_Qle. }
  2: { eapply Qle_lt_trans; [exact Hqb|]. by rewrite <- Zlt_Qlt. }
  rewrite Z.max_l by lia. cbv zeta.
  set (k := (2 ^ (52 - e))%Z).
  assert (Hk : (0 < k)%Z) by (apply Z.pow_pos_nonneg; lia).
  assert (Hp : pow2 (e - 52) == / inject_Z k).
  { replace (e - 52)%Z with (- (52 - e))%Z by lia. apply pow2_neg. lia. }
  assert (Hki : ~ inject_Z k == 0).
  { change 0 with (inject_Z 0). rewrite inject_Z_injective. lia. }
  set (m := Qround_half_even (q / pow2 (e - 52))).
  assert (Hm : (a * k <= m <= b * k)%Z).
  { unfold m.
    assert (Hs : q / pow2 (e - 52) == q * inject_Z k).
    { rewrite Hp. unfold Qdiv. by rewrite Qinv_involutive. }
    rewrite Hs. by apply round_scaled_bounds. }
  assert (Hm0 : (m =? 0)%Z = false) by (apply Z.eqb_neq; nia).
  rewrite Hm0.
  set (v := Qred (inject_Z m * pow2 (e - 52))).
  assert (Hv : inject_Z a <= v /\ v <= inject_Z b).
  { unfold v. rewrite Qred_correct, Hp. by apply unscale_bounds. }
  destruct (Qle_bool (pow2 1024) v) eqn:Hov.
  { exfalso. apply Qle_bool_iff in Hov.
    rewrite (pow2_nonneg 1024) in Hov by lia.
    assert (Hbb : inject_Z b < inject_Z (2 ^ 1024)).
    { rewrite <- Zlt_Qlt.
      eapply Z.lt_le_trans; [exact Hb|].
      apply Z.pow_le_mono_r; lia. }
    destruct Hv. lra. }
  exists v. done.
Qed.

(** [round(x, 5)] of a finite [x] whose magnitude lies between two
    integers of one binade is finite, keeps the sign and the bounds. *)
Lemma py_round_5_magnitude (q : Q) (a b e : Z) :
  (0 <= e <= 52)%Z -> (2 ^ e <= a)%Z -> (b < 2 ^ (e + 1))%Z ->
  inject_Z a <= Qabs q -> Qabs q <= inject_Z b ->
  exists v,
    py_round_ndigits (FFin q) 5
    = Ok (FFin (if Qle_bool q 0 && negb (Qle_bool 0 q) then - v else v))
    /\ inject_Z a <= v /\ v <= inject_Z b.
Proof.
  intros He Ha Hb Hqa Hqb.
  unfold py_round_ndigits.
  change (323 <? 5)%Z with false. change (5 <? -308)%Z with false.
  cbv iota zeta.
  set (neg := Qle_bool q 0 && negb (Qle_bool 0 q)).
  set (k := Qround_half_even (Qabs q * pow10 5)).
  assert (Hk : (a * 10 ^ 5 <= k <= b * 10 ^ 5)%Z).
  { unfold k. rewrite (pow10_nonneg 5) by lia.
    apply round_scaled_bounds; [lia|done..]. }
  assert (Hu : inject_Z a <= inject_Z k * pow10 (- (5))
               /\ inject_Z k * pow10 (- (5)) <= inject_Z b).
  { rewrite (pow10_neg 5) by lia. apply unscale_bounds; [lia|done]. }
  destruct Hu as [Hu1 Hu2].
  destruct (b64_of_Q_binade neg _ a b e He Ha Hb Hu1 Hu2) as (v & Hv & Hva & Hvb).
  exists v. change (-5)%Z with (- (5))%Z. rewrite Hv. done.
Qed.

Lemma lat_in_envelope_spec (x : pyfloat) :
  lat_in_envelope x = true <-> exists q, x = FFin q /\ 32 <= q /\ q <= 42.
Proof.
  unfold lat_in_envelope. split.
  - destruct x as [|[]| |q]; simpl; try discriminate.
    rewrite andb_true_iff, !Qle_bool_iff. intros [? ?]. by exists q.
  - intros (q & -> & ? & ?). simpl.
    rewrite andb_true_iff, !Qle_bool_iff. done.
Qed.

Lemma lon_in_envelope_spec (x : pyfloat) :
  lon_in_envelope x = true
  <-> exists q, x = FFin q /\ -125 <= q /\ q <= -114.
Proof.
  unfold lon_in_envelope. split.
  - destruct x as [|[]| |q]; simpl; try discriminate.
    rewrite andb_true_iff, !Qle_bool_iff. intros [? ?]. by exists q.
  - intros (q & -> & ? & ?). simpl.
    rewrite andb_true_iff, !Qle_bool_iff. done.
Qed.

(** Rounding a latitude of the envelope to five decimals stays inside. *)
Lemma round5_lat (x : pyfloat) :
  lat_in_envelope x = true ->
  exists y, py_round_ndigits x 5 = Ok y /\ lat_in_envelope y = true.
Proof.
  rewrite lat_in_envelope_spec. intros (q & -> & Hlo & Hhi).
  assert (Hq : Qabs q == q) by (apply Qabs_pos; lra).
  destruct (py_round_5_magnitude q 32 42 5) as (v & Hv & Hva & Hvb);
    [lia|lia|lia|by rewrite Hq..|].
  assert (Hn : Qle_bool q 0 = false).
  { destruct (Qle_bool q 0) eqn:E; [|done].
    apply Qle_bool_iff in E. lra. }
  rewrite Hn in Hv. simpl in Hv.
  exists (FFin v). split; [done|].
  apply lat_in_envelope_spec. by exists v.
Qed.

(** Rounding a longitude of the envelope to five decimals stays inside. *)
Lemma round5_lon (x : pyfloat) :
  lon_in_envelope x = true ->
  exists y, py_round_ndigits x 5 = Ok y /\ lon_in_envelope y = true.
Proof.
  rewrite lon_in_envelope_spec. intros (q & -> & Hlo & Hhi).
  assert (Hq : Qabs q == - q) by (apply Qabs_neg; lra).
  destruct (py_round_5_magnitude q 114 125 6) as (v & Hv & Hva & Hvb);
    [lia|lia|lia|rewrite Hq; unfold inject_Z; lra..|].
  assert (Hn : Qle_bool q 0 = true) by (apply Qle_bool_iff; lra).
  assert (Hp : Qle_bool 0 q = false).
  { destruct (Qle_bool 0 q) eqn:E; [|done].
    apply Qle_bool_iff in E. lra. }
  rewrite Hn, Hp in Hv. simpl in Hv.
  exists (FFin (- v)). split; [done|].
  apply lon_in_envelope_spec. exists (- v). split; [done|].
  unfold inject_Z in *. lra.
Qed.

End Rounding.

(** ** Factoring the loop body *)

Ltac case_res :=
  match goal with
  | |- context [match ?x with Ok _ => _ | Raise _ => _ end] =>
      destruct x as [?|?] eqn:?; simpl
  end.

Lemma process_row_normalize (st : scan_state) (r : row) :
  process_row st r = (o ← normalize_row r; Ok (aggregate st o)).
Proof.
  unfold process_row, normalize_row, mbind, res_bind.
  destruct (parse_float (row_get r "DECIMALLATITUDE")) as [[la|]|e];
    simpl; try done;
  destruct (parse_float (row_get r "DECIMALLONGITUDE")) as [[lo|]|e'];
    simpl; try done.
  destruct (negb (lat_in_envelope la) || negb (lon_in_envelope lo));
    [done|].
  destruct (parse_int (row_get r "TOTALDRILLDEPTH")) as [td|]; [|done].
  destruct (parse_int (row_get r "TOTALCOMPLETEDDEPTH")) as [cd|]; [|done].
  destruct (row_get_default r "COUNTYNAME" "Unknown") as [c|]; [|done].
  destruct (py_round_ndigits la 5) as [la5|]; [|done].
  destruct (py_round_ndigits lo 5) as [lo5|]; [|done].
  destruct (parse_int (row_get r "STATICWATERLEVEL")) as [sta|]; [|done].
  destruct (parse_float (row_get r "WELLYIELD")) as [yi|]; [|done].
  destruct (extract_year (row_get_default r "DATEWORKENDED" ""))
    as [ye|]; [|done].
  done.
Qed.

Local Open Scope list_scope.

Section Aggregation.

Implicit Types (acc : list (string * well)) (st : scan_state).
Implicit Types (c : string) (w : well).

Lemma bucket_snoc c acc c' w :
  bucket c (acc ++ [(c', w)])
  = if decide (c' = c) then bucket c acc ++ [w] else bucket c acc.
Proof.
  unfold bucket. rewrite filter_app, fmap_app, filter_cons, filter_nil.
  simpl. destruct (decide (c' = c)); simpl; [done|].
  by rewrite app_nil_r.
Qed.

Lemma true_depths_snoc (ws : list well) w :
  true_depths (ws ++ [w])
  = true_depths ws ++ (if int_truthy (depth w)
                       then match depth w with Some z => [z] | None => [] end
                       else []).
Proof.
  unfold true_depths. rewrite omap_app. f_equal. simpl.
  destruct (int_truthy (depth w)); [|done]. by destruct (depth w).
Qed.

Lemma total_wells_append (m : gmap string (list well)) c w :
  total_wells (<[c := default [] (m !! c) ++ [w]]> m) = S (total_wells m).
Proof.
  unfold total_wells. destruct (m !! c) as [old|] eqn:E; simpl.
  - rewrite <- insert_delete_eq.
    rewrite map_to_list_insert by apply lookup_delete_eq.
    rewrite <- (map_to_list_delete m c old E). simpl.
    rewrite length_app. simpl. lia.
  - by rewrite map_to_list_insert.
Qed.

Lemma represents_initial : represents 0 [] initial_state.
Proof.
  split; done.
Qed.

Lemma represents_reject n acc st :
  represents n acc st -> represents (S n) acc (aggregate st None).
Proof. intros []. split; simpl; auto. Qed.

Lemma represents_accept n acc st c w :
  represents n acc st ->
  represents (S n) (acc ++ [(c, w)]) (aggregate st (Some (c, w))).
Proof.
  intros [Ht Hc Hd Hw Hk Hs].
  assert (Hb : forall c', default [] (wells_by_county st !! c')
                          = bucket c' acc).
  { intros c'. rewrite Hw. by destruct (decide (bucket c' acc = [])) as [->|]. }
  split.
  - simpl. destruct (depth w); simpl; by rewrite Ht.
  - simpl. rewrite length_app. simpl.
    destruct (depth w); simpl; rewrite Hc; lia.
  - rewrite filter_app, length_app, filter_cons, filter_nil.
    cbn [aggregate st_stats records_with_depth snd].
    destruct (depth w) as [z|] eqn:E.
    + rewrite decide_True by eauto. simpl. rewrite Hd. lia.
    + rewrite decide_False by (by intros [? ?]). simpl. rewrite Hd. lia.
  - intros c'. simpl. rewrite bucket_snoc.
    assert (Hwd : wells_by_county
                    (if depth w is Some _
                     then bump_depth (bump_coords (bump_total st))
                     else bump_coords (bump_total st))
                  = wells_by_county st) by (by destruct (depth w)).
    rewrite Hwd, Hb.
    destruct (decide (c = c')) as [->|Hne].
    + rewrite lookup_insert_eq.
      rewrite decide_False; [done|]. by destruct (bucket c' acc).
    + rewrite lookup_insert_ne by done. apply Hw.
  - intros c'. simpl. rewrite bucket_snoc.
    assert (Hcd : counties (st_stats
                    (if depth w is Some _
                     then bump_depth (bump_coords (bump_total st))
                     else bump_coords (bump_total st)))
                  = counties (st_stats st)) by (by destruct (depth w)).
    rewrite Hcd.
    destruct (decide (c = c')) as [->|Hne].
    + rewrite lookup_insert_eq, Hk.
      rewrite (decide_False (P := bucket c' acc ++ [w] = []));
        [|by destruct (bucket c' acc)].
      f_equal. rewrite length_app, true_depths_snoc. simpl.
      destruct (decide (bucket c' acc = [])) as [->|]; simpl.
      * destruct (depth w) as [z|]; [|done]. simpl.
        by destruct (negb (z =? 0)%Z).
      * f_equal; [lia|].
        destruct (depth w) as [z|]; simpl; [|by rewrite app_nil_r].
        destruct (negb (z =? 0)%Z); [done|by rewrite app_nil_r].
    + rewrite lookup_insert_ne by done. apply Hk.
  - simpl.
    assert (Hwd : wells_by_county
                    (if depth w is Some _
                     then bump_depth (bump_coords (bump_total st))
                     else bump_coords (bump_total st))
                  = wells_by_county st) by (by destruct (depth w)).
    rewrite Hwd, total_wells_append, Hs, length_app. simpl. lia.
Qed.

End Aggregation.

(** ** The scan, row by row *)

Lemma scan_from_spec (rows : list row) : forall st n acc,
  represents n acc st ->
  match scan_from st rows with
  | Ok st' => exists acc', accepted rows = Ok acc'
                           /\ represents (n + length rows) (acc ++ acc') st'
  | Raise e => accepted rows = Raise e
  end.
Proof.
  induction rows as [|r rows IH]; intros st n acc Hrep; simpl.
  - exists []. rewrite app_nil_r, Nat.add_0_r. done.
  - rewrite process_row_normalize. unfold mbind, res_bind.
    destruct (normalize_row r) as [[[c w]|]|e]; simpl; [| |done].
    + pose proof (represents_accept _ _ _ c w Hrep) as Hrep'.
      specialize (IH _ _ _ Hrep').
      destruct (scan_from _ rows) as [st'|e].
      * destruct IH as (acc' & -> & Hr). exists ((c, w) :: acc').
        split; [done|].
        rewrite <- app_assoc in Hr. simpl in Hr.
        by replace (n + S (length rows))%nat with (S n + length rows)%nat
          by lia.
      * by rewrite IH.
    + pose proof (represents_reject _ _ _ Hrep) as Hrep'.
      specialize (IH _ _ _ Hrep').
      destruct (scan_from _ rows) as [st'|e].
      * destruct IH as (acc' & -> & Hr). exists acc'. split; [done|].
        by replace (n + S (length rows))%nat with (S n + length rows)%nat
          by lia.
      * by rewrite IH.
Qed.

Lemma scan_spec (rows : list row) (st : scan_state) :
  scan rows = Ok st ->
  exists acc, accepted rows = Ok acc /\ represents (length rows) acc st.
Proof.
  intros H. pose proof (scan_from_spec rows _ _ _ represents_initial) as Hs.
  fold (scan rows) in Hs. rewrite H in Hs. exact Hs.
Qed.


(** Every accepted pair comes from a row. *)
Lemma accepted_inv (rows : list row) (acc : list (string * well))
    (p : string * well) :
  accepted rows = Ok acc -> p ∈ acc ->
  exists r, r ∈ rows /\ normalize_row r = Ok (Some p).
Proof.
  revert acc. induction rows as [|r' rows IH]; intros acc Ha Hin.
  - injection Ha as <-. by apply elem_of_nil in Hin.
  - simpl in Ha. unfold mbind, res_bind in Ha.
    destruct (normalize_row r') as [o|] eqn:E; [|done].
    destruct (accepted rows) as [acc0|]; [|done].
    injection Ha as <-.
    assert (Hrec : p ∈ acc0 ->
                   exists r, r ∈ r' :: rows /\ normalize_row r = Ok (Some p)).
    { intros Hp. destruct (IH _ eq_refl Hp) as (r & ? & ?).
      exists r. split; [by right|done]. }
    destruct o as [p'|]; [|auto].
    apply elem_of_cons in Hin as [->|Hin]; [|auto].
    exists r'. split; [left|done].
Qed.

Lemma elem_of_bucket (c : string) (w : well) (acc : list (string * well)) :
  w ∈ bucket c acc <-> (c, w) ∈ acc.
Proof.
  unfold bucket. rewrite list_elem_of_fmap. split.
  - intros ([c' w'] & -> & Hin). apply list_elem_of_filter in Hin as [Hc Hin].
    simpl in *. by subst.
  - intros Hin. exists (c, w). split; [done|].
    apply list_elem_of_filter. done.
Qed.

(** ** The artifacts of a state *)

Lemma mapM_res_Forall2 {A B} (f : A -> res B) (l : list A) (l' : list B) :
  mapM_res f l = Ok l' -> Forall2 (fun x y => f x = Ok y) l l'.
Proof.
  revert l'. induction l as [|x l IH]; intros l' H; simpl in H.
  - injection H as <-. constructor.
  - unfold mbind, res_bind in H.
    destruct (f x) as [y|] eqn:E; [|done].
    destruct (mapM_res f l) as [ys|]; [|done].
    injection H as <-. constructor; auto.
Qed.

Lemma sorted_items_perm {V} (m : gmap string V) :
  sorted_items m ≡ₚ map_to_list m.
Proof. apply merge_sort_Permutation. Qed.

Lemma elem_of_sorted_items {V} (m : gmap string V) (c : string) (v : V) :
  (c, v) ∈ sorted_items m <-> m !! c = Some v.
Proof. by rewrite sorted_items_perm, elem_of_map_to_list. Qed.

Lemma write_artifacts_inv (st : scan_state) (out : output) :
  write_artifacts st = Ok out ->
  let items := sorted_items (wells_by_county st) in
  out_stats out = st_stats st
  /\ Forall2 (fun it s => county_summary it = Ok s) items (counties_json out)
  /\ county_files out = write_county <$> items
  /\ Forall2 (fun it e => index_entry it = Ok e) items (index_json out).
Proof.
  unfold write_artifacts, mbind, res_bind. intros H.
  destruct (mapM_res county_summary _) as [cs|] eqn:E1; [|done].
  destruct (mapM_res index_entry _) as [ix|] eqn:E2; [|done].
  injection H as <-. simpl.
  auto using mapM_res_Forall2.
Qed.

Lemma process_wells_inv (rows : list row) (out : output) :
  process_wells rows = Ok out ->
  exists st acc,
    scan rows = Ok st /\ write_artifacts st = Ok out
    /\ accepted rows = Ok acc /\ represents (length rows) acc st.
Proof.
  unfold process_wells, mbind, res_bind. intros H.
  destruct (scan rows) as [st|] eqn:E; [|done].
  destruct (scan_spec _ _ E) as (acc & ? & ?). by exists st, acc.
Qed.

Lemma county_summary_name_count (it : string * list well) (s : Summary.t) :
  county_summary it = Ok s ->
  Summary.name s = it.1 /\ Summary.count s = length it.2.
Proof.
  destruct it as [c ws]. unfold county_summary, mbind, res_bind.
  repeat case_res; try done; intros [= <-]; done.
Qed.

Lemma index_entry_fields (it : string * list well) (e : Index.t) :
  index_entry it = Ok e ->
  Index.name e = it.1 /\ Index.file e = filename_of it.1
  /\ Index.count e = length it.2.
Proof.
  destruct it as [c ws]. unfold index_entry, mbind, res_bind.
  repeat case_res; try done; intros [= <-]; done.
Qed.

Lemma Forall2_fmap_eq {A B C} (f : A -> C) (g : B -> C)
    (l : list A) (k : list B) :
  Forall2 (fun x y => g y = f x) l k -> g <$> k = f <$> l.
Proof.
  induction 1 as [|x y l k H _ IH]; [done|].
  rewrite !fmap_cons. by f_equal.
Qed.


(** ** Record counts *)


(** ** File names *)





(** ** The normalizer *)

Lemma py_float_raises (s : string) (e : exn) :
  py_float s = Raise e -> e = ValueError.
Proof.
  unfold py_float.
  destruct (PyStr.drop_underscores _) as [u|]; [|by intros [= <-]].
  destruct (parse_decimal u); [done|].
  destruct (parse_inf_or_nan u); [done|by intros [= <-]].
Qed.

Lemma py_int_raises (s : string) (e : exn) :
  py_int s = Raise e -> e = ValueError.
Proof.
  unfold py_int. destruct (PyStr.split_sign _) as [neg r].
  destruct (PyStr.drop_underscores r) as [u|]; [|by intros [= <-]].
  destruct (PyStr.span_digits u) as [d rest].
  by destruct (_ && _); [|intros [= <-]].
Qed.

(** [parse_float] never raises. *)
Lemma parse_float_total (val : option string) :
  exists o, parse_float val = Ok o.
Proof.
  unfold parse_float, try_except.
  destruct val as [v|]; [|by eexists].
  destruct (_ && _); [|by eexists].
  unfold mbind, res_bind.
  destruct (py_float v) as [x|e] eqn:E; [by eexists|].
  apply py_float_raises in E as ->. by eexists.
Qed.

(** [parse_int] lets one exception through: the [OverflowError] of the
    conversion of an infinite float. *)
Lemma parse_int_raises (val : option string) (e : exn) :
  parse_int val = Raise e -> e = OverflowError.
Proof.
  unfold parse_int, try_except.
  destruct val as [v|]; [|done].
  destruct (_ && _); [|done].
  unfold mbind, res_bind.
  destruct (py_float v) as [x|e'] eqn:E.
  - destruct x as [|neg| |q]; simpl; try done. by intros [= <-].
  - apply py_float_raises in E as ->. done.
Qed.

(** A row is skipped exactly when its coordinates fail the test, and a
    skip is a result, not an exception. *)
Lemma normalize_row_reject_iff (r : row) :
  normalize_row r = Ok None <-> coords_valid r = false.
Proof.
  unfold normalize_row, coords_valid, mbind, res_bind.
  destruct (parse_float_total (row_get r "DECIMALLATITUDE")) as [la ->].
  destruct (parse_float_total (row_get r "DECIMALLONGITUDE")) as [lo ->].
  destruct la as [la|], lo as [lo|]; try (by split).
  destruct (lat_in_envelope la), (lon_in_envelope lo); simpl;
    try (by split).
  split; [|done]. repeat case_res; done.
Qed.

Lemma normalize_row_accept_inv (r : row) (c : string) (w : well) :
  normalize_row r = Ok (Some (c, w)) -> accepted_as r c w.
Proof.
  unfold normalize_row, mbind, res_bind.
  destruct (parse_float (row_get r "DECIMALLATITUDE")) as [[la|]|] eqn:E1;
    try done;
  destruct (parse_float (row_get r "DECIMALLONGITUDE")) as [[lo|]|] eqn:E2;
    try done.
  destruct (lat_in_envelope la) eqn:Ela; [|done].
  destruct (lon_in_envelope lo) eqn:Elo; [|done]. simpl.
  destruct (parse_int (row_get r "TOTALDRILLDEPTH")) as [td|] eqn:E3;
    [|done].
  destruct (parse_int (row_get r "TOTALCOMPLETEDDEPTH")) as [cd|] eqn:E4;
    [|done].
  destruct (row_get_default r "COUNTYNAME" "Unknown") as [cell|] eqn:E5;
    [|done].
  simpl.
  destruct (py_round_ndigits la 5) as [la5|] eqn:Er1; [|done].
  destruct (py_round_ndigits lo 5) as [lo5|] eqn:Er2; [|done].
  destruct (parse_int (row_get r "STATICWATERLEVEL")) as [sta|] eqn:E6;
    [|done].
  destruct (parse_float (row_get r "WELLYIELD")) as [yi|] eqn:E7; [|done].
  destruct (extract_year _) as [ye|] eqn:E8; [|done].
  intros [= <- <-]. split; simpl; try done.
  - by exists la.
  - by exists lo.
  - by exists td, cd.
  - by exists cell.
Qed.

Lemma accepted_in_envelope (r : row) (c : string) (w : well) :
  normalize_row r = Ok (Some (c, w)) -> in_envelope w.
Proof.
  intros H. destruct (normalize_row_accept_inv _ _ _ H)
    as [(la & _ & Hla & Hra) (lo & _ & Hlo & Hro) _ _ _ _ _].
  destruct (round5_lat _ Hla) as (y & Hy & Hey).
  destruct (round5_lon _ Hlo) as (z & Hz & Hez).
  rewrite Hy in Hra. rewrite Hz in Hro.
  apply lat_in_envelope_spec in Hey as (qa & ? & ? & ?).
  apply lon_in_envelope_spec in Hez as (qo & ? & ? & ?).
  exists qa, qo. repeat split; try done; congruence.
Qed.

(** ** Depth *)

(** C1, the counterexample: a completed depth of ["0"] parses, yet the
    record carries the drill depth 100. *)
Lemma completed_depth_zero_is_skipped :
  exists c w, normalize_row row_completed_zero = Ok (Some (c, w))
              /\ ~ completed_depth_first row_completed_zero w.
Proof.
  eexists _, _. split; [vm_compute; reflexivity|].
  intros H. specialize (H 100%Z eq_refl). vm_compute in H. discriminate.
Qed.

(** C1, amended.  For an accepted row, the depth of the record is the
    integer parse of the completed depth when that parse is a non-zero
    integer, and otherwise the integer parse of the drill depth (absent
    when that one is absent). *)
Theorem depth_completed_else_total (r : row) (c : string) (w : well) :
  normalize_row r = Ok (Some (c, w)) ->
  exists td cd,
    parse_int (row_get r "TOTALDRILLDEPTH") = Ok td
    /\ parse_int (row_get r "TOTALCOMPLETEDDEPTH") = Ok cd
    /\ depth w = match cd with
                 | Some z => if (z =? 0)%Z then td else Some z
                 | None => td
                 end.
Proof.
  intros H. destruct (normalize_row_accept_inv _ _ _ H)
    as [_ _ (td & cd & Ht & Hc & Hd) _ _ _ _].
  exists td, cd. repeat split; try done.
  rewrite Hd. unfold py_or, int_truthy.
  destruct cd as [z|]; [|done]. by destruct (z =? 0)%Z.
Qed.

Lemma depth_completed_else_total_witness :
  exists td cd,
    parse_int (row_get row_kern "TOTALDRILLDEPTH") = Ok td
    /\ parse_int (row_get row_kern "TOTALCOMPLETEDDEPTH") = Ok cd
    /\ depth well_kern = match cd with
                         | Some z => if (z =? 0)%Z then td else Some z
                         | None => td
                         end.
Proof.
  apply (depth_completed_else_total row_kern "Kern" well_kern).
  vm_compute. reflexivity.
Defined.



(** ** Acceptance *)

(** C6, the failing input.  The coordinates of [row_inf_depth] pass the
    test, yet the row is neither accepted nor skipped: the conversion of
    the depth ["inf"] raises [OverflowError], which [parse_int] does not
    catch, and the run ends there.  A short line whose county cell is
    [None] ends the run likewise, with [AttributeError]. *)
Theorem valid_row_raises :
  coords_valid row_inf_depth = true
  /\ normalize_row row_inf_depth = Raise OverflowError
  /\ process_wells [row_kern; row_inf_depth] = Raise OverflowError
  /\ coords_valid row_short_line = true
  /\ normalize_row row_short_line = Raise AttributeError.
Proof. repeat split; vm_compute; reflexivity. Qed.

(** A row that has its two coordinates and nothing else is accepted. *)
Lemma coordinates_alone_accepted :
  normalize_row row_no_county_column
  = Ok (Some ("Unknown",
              {| lat := FFin (71 # 2); lon := FFin (-481 # 4);
                 depth := None; static := None; yield := None;
                 year := None |})).
Proof. vm_compute. reflexivity. Qed.

(** ** Year *)

Lemma split_no_sep (sep : ascii) (s : string) :
  PyStr.contains sep s = false -> PyStr.split sep s = [s].
Proof.
  induction s as [|c s IH]; simpl; [done|].
  intros H. apply orb_false_iff in H as [-> H]. by rewrite (IH H).
Qed.

Lemma py_int_or_absent (s : string) :
  try_except (y ← py_int s; mret (Some y)) ValueError_or_IndexError
             (mret None)
  = Ok (int_or_absent s).
Proof.
  unfold int_or_absent, try_except, mbind, res_bind.
  destruct (py_int s) as [z|e] eqn:E; [done|].
  by apply py_int_raises in E as ->.
Qed.

Lemma long_string_truthy (d : string) :
  (4 <= String.length d)%nat -> PyStr.truthy d = true.
Proof. destruct d; simpl; [lia|done]. Qed.

(** C7.  The year of a date string of at least four characters is the
    integer parse of the third part when the string splits on ['/'] into
    exactly three parts, and the integer parse of its first four
    characters when it has no ['/'] but a ['-']; it is absent when that
    parse fails, when the string is shorter than four characters, when
    the parts are not three, and when the string has neither separator.
    No exception leaves the extraction, whose result is the year of the
    record of an accepted row.  The four dates of the specification give
    2010, 2010, nothing and nothing. *)
Theorem year_extraction :
  (forall d a b y,
      (4 <= String.length d)%nat -> PyStr.split "/" d = [a; b; y] ->
      extract_year (Some d) = Ok (int_or_absent y))
  /\ (forall d,
      (4 <= String.length d)%nat -> PyStr.contains "/" d = false ->
      PyStr.contains "-" d = true ->
      extract_year (Some d) = Ok (int_or_absent (PyStr.take 4 d)))
  /\ (forall d,
      (String.length d < 4)%nat
      \/ (PyStr.contains "/" d = true /\ length (PyStr.split "/" d) <> 3%nat)
      \/ (PyStr.contains "/" d = false /\ PyStr.contains "-" d = false) ->
      extract_year (Some d) = Ok None)
  /\ extract_year None = Ok None
  /\ (forall o, exists y, extract_year o = Ok y)
  /\ (forall r c w,
      normalize_row r = Ok (Some (c, w)) ->
      extract_year (row_get_default r "DATEWORKENDED" "") = Ok (year w))
  /\ extract_year (Some "03/15/2010") = Ok (Some 2010%Z)
  /\ extract_year (Some "2010-03-15") = Ok (Some 2010%Z)
  /\ extract_year (Some "not-a-date") = Ok None
  /\ extract_year (Some "") = Ok None.
Proof.
  assert (H1 : forall d a b y,
      (4 <= String.length d)%nat -> PyStr.split "/" d = [a; b; y] ->
      extract_year (Some d) = Ok (int_or_absent y)).
  { intros d a b y Hlen Hs. unfold extract_year.
    rewrite (long_string_truthy d Hlen).
    rewrite (proj2 (Nat.leb_le 4 (String.length d)) Hlen). simpl.
    destruct (PyStr.contains "/" d) eqn:Hc.
    - rewrite Hs. simpl. apply py_int_or_absent.
    - by rewrite (split_no_sep _ _ Hc) in Hs. }
  assert (H2 : forall d,
      (4 <= String.length d)%nat -> PyStr.contains "/" d = false ->
      PyStr.contains "-" d = true ->
      extract_year (Some d) = Ok (int_or_absent (PyStr.take 4 d))).
  { intros d Hlen Hs Hh. unfold extract_year.
    rewrite (long_string_truthy d Hlen).
    rewrite (proj2 (Nat.leb_le 4 (String.length d)) Hlen). simpl.
    rewrite Hs, Hh. apply py_int_or_absent. }
  assert (H3 : forall d,
      (String.length d < 4)%nat
      \/ (PyStr.contains "/" d = true /\ length (PyStr.split "/" d) <> 3%nat)
      \/ (PyStr.contains "/" d = false /\ PyStr.contains "-" d = false) ->
      extract_year (Some d) = Ok None).
  { intros d Hd. unfold extract_year.
    destruct (PyStr.truthy d && (4 <=? String.length d)%nat) eqn:Hg;
      [|done].
    apply andb_true_iff in Hg as [_ Hlen%Nat.leb_le].
    destruct Hd as [Hd|[[Hc Hn]|[Hc Hh]]]; [lia| |].
    - rewrite Hc. apply Nat.eqb_neq in Hn. by rewrite Hn.
    - by rewrite Hc, Hh. }
  assert (H5 : forall o, exists y, extract_year o = Ok y).
  { intros [d|]; [|by eexists].
    destruct (le_lt_dec 4 (String.length d)) as [Hlen|Hlen].
    - destruct (PyStr.contains "/" d) eqn:Hc.
      + destruct (PyStr.split "/" d) as [|a [|b [|y [|z l]]]] eqn:Hs;
          try (eexists; apply H3; right; left; split; [done|];
               rewrite Hs; simpl; lia).
        eexists. by eapply H1.
      + destruct (PyStr.contains "-" d) eqn:Hh.
        * eexists. by apply H2.
        * eexists. apply H3. auto.
    - eexists. apply H3. auto. }
  split; [exact H1|]. split; [exact H2|]. split; [exact H3|].
  split; [reflexivity|]. split; [exact H5|].
  split.
  { intros r c w H. by destruct (normalize_row_accept_inv _ _ _ H). }
  repeat split; vm_compute; reflexivity.
Qed.

Lemma year_extraction_witness :
  extract_year (Some "03/15/2010") = Ok (int_or_absent "2010")
  /\ extract_year (Some "2010-03-15") = Ok (int_or_absent "2010")
  /\ extract_year (Some "1/2") = Ok None.
Proof.
  destruct year_extraction as (H1 & H2 & H3 & _).
  split; [|split].
  - apply (H1 "03/15/2010" "03" "15" "2010"); [simpl; lia|reflexivity].
  - apply (H2 "2010-03-15"); [simpl; lia|reflexivity|reflexivity].
  - apply (H3 "1/2"). left. simpl. lia.
Defined.

(** ** From accepted rows to county files *)


(** Every record of a county file comes from an accepted row of that
    county. *)
Lemma file_record_accepted (rows : list row) (out : output)
    (f : county_file) (w : well) :
  process_wells rows = Ok out -> f ∈ county_files out -> w ∈ cf_wells f ->
  exists r, r ∈ rows /\ normalize_row r = Ok (Some (cf_county f, w)).
Proof.
  intros H Hf Hw'.
  destruct (process_wells_inv _ _ H) as (st & acc & _ & Hw & Ha & Hrep).
  destruct (write_artifacts_inv _ _ Hw) as (_ & _ & Hcf & _).
  rewrite Hcf in Hf. apply list_elem_of_fmap in Hf as ([c ws] & -> & Hi).
  apply elem_of_sorted_items in Hi. simpl in *.
  rewrite (rep_wells _ _ _ Hrep c) in Hi.
  destruct (decide (bucket c acc = [])); [done|]. injection Hi as <-.
  apply elem_of_bucket in Hw'. by eapply accepted_inv.
Qed.


(** ** Region *)



(** ** The envelope *)

Lemma parse_float_Some (val : option string) (x : pyfloat) :
  parse_float val = Ok (Some x)
  <-> exists s, val = Some s /\ PyStr.strip s <> "" /\ py_float s = Ok x.
Proof.
  unfold parse_float, try_except, mbind, res_bind. split.
  - destruct val as [s|]; [|done].
    destruct (PyStr.truthy s) eqn:E1; [|done].
    destruct (PyStr.truthy (PyStr.strip s)) eqn:E2; [|done]. simpl.
    destruct (py_float s) as [y|e] eqn:E3.
    + intros [= ->]. exists s. repeat split; try done.
      intros E. by rewrite E in E2.
    + by destruct (ValueError_or_TypeError e).
  - intros (s & -> & Hs & Hf).
    assert (PyStr.truthy (PyStr.strip s) = true) as ->.
    { destruct (PyStr.strip s); done. }
    assert (PyStr.truthy s = true) as ->.
    { destruct s; [|done]. by exfalso. }
    simpl. by rewrite Hf.
Qed.

(** The rows that pass the test have two cells that are not blank and
    read as floats inside the envelope. *)
Lemma coords_valid_spec (r : row) :
  coords_valid r = true
  <-> exists sa so qa qo,
        row_get r "DECIMALLATITUDE" = Some sa /\ PyStr.strip sa <> ""
        /\ py_float sa = Ok (FFin qa)
        /\ row_get r "DECIMALLONGITUDE" = Some so /\ PyStr.strip so <> ""
        /\ py_float so = Ok (FFin qo)
        /\ (32 <= qa)%Q /\ (qa <= 42)%Q /\ (-125 <= qo)%Q /\ (qo <= -114)%Q.
Proof.
  unfold coords_valid. split.
  - destruct (parse_float (row_get r "DECIMALLATITUDE"))
      as [[la|]|] eqn:E1; try done.
    destruct (parse_float (row_get r "DECIMALLONGITUDE"))
      as [[lo|]|] eqn:E2; try done.
    intros [Hla Hlo]%andb_true_iff.
    apply parse_float_Some in E1 as (sa & ? & ? & ?).
    apply parse_float_Some in E2 as (so & ? & ? & ?).
    apply lat_in_envelope_spec in Hla as (qa & -> & ? & ?).
    apply lon_in_envelope_spec in Hlo as (qo & -> & ? & ?).
    by exists sa, so, qa, qo.
  - intros (sa & so & qa & qo & H1 & H2 & H3 & H4 & H5 & H6 & ? & ? & ? & ?).
    rewrite (proj2 (parse_float_Some _ (FFin qa))) by eauto.
    rewrite (proj2 (parse_float_Some _ (FFin qo))) by eauto.
    apply andb_true_iff. split.
    + apply lat_in_envelope_spec. by exists qa.
    + apply lon_in_envelope_spec. by exists qo.
Qed.

Lemma accepted_filter (rows : list row) :
  accepted (filter (fun r => coords_valid r = true) rows) = accepted rows.
Proof.
  induction rows as [|r rows IH]; [done|].
  rewrite filter_cons. destruct (decide (coords_valid r = true)) as [E|E].
  - simpl. by rewrite IH.
  - apply not_true_is_false, normalize_row_reject_iff in E.
    simpl. rewrite E, IH. unfold mbind, res_bind.
    by destruct (accepted rows).
Qed.

Lemma represents_wells_eq (n n' : nat) (acc : list (string * well))
    (st st' : scan_state) :
  represents n acc st -> represents n' acc st' ->
  wells_by_county st = wells_by_county st'.
Proof.
  intros H H'. apply map_eq. intros c.
  by rewrite (rep_wells _ _ _ H), (rep_wells _ _ _ H').
Qed.

Lemma write_artifacts_wells (st st' : scan_state) (out : output) :
  wells_by_county st = wells_by_county st' ->
  write_artifacts st = Ok out ->
  exists out',
    write_artifacts st' = Ok out'
    /\ counties_json out' = counties_json out
    /\ county_files out' = county_files out
    /\ index_json out' = index_json out.
Proof.
  unfold write_artifacts, mbind, res_bind. intros <-.
  destruct (mapM_res county_summary _) as [cs|]; [|done].
  destruct (mapM_res index_entry _) as [ix|]; [|done].
  intros [= <-]. by eexists.
Qed.

(** C3.  Every record in a bucket after the scan, and every record of a
    county file, has its latitude between 32 and 42 and its longitude
    between -125 and -114.  A row that lacks a coordinate, whose
    coordinate is blank or does not read as a float, or whose coordinate
    is outside the envelope, is skipped: it only adds one to
    [total_records], and the three kinds of document are those of the
    run on the other rows alone. *)
Theorem coordinates_in_envelope (rows : list row) :
  (forall st c ws w,
      scan rows = Ok st -> wells_by_county st !! c = Some ws -> w ∈ ws ->
      in_envelope w)
  /\ (forall out f w,
      process_wells rows = Ok out -> f ∈ county_files out ->
      w ∈ cf_wells f -> in_envelope w)
  /\ (forall r st,
      coords_valid r = false -> process_row st r = Ok (bump_total st))
  /\ (forall out,
      process_wells rows = Ok out ->
      exists out',
        process_wells (filter (fun r => coords_valid r = true) rows)
        = Ok out'
        /\ counties_json out' = counties_json out
        /\ county_files out' = county_files out
        /\ index_json out' = index_json out).
Proof.
  split; [|split; [|split]].
  - intros st c ws w Hs Hl Hw.
    destruct (scan_spec _ _ Hs) as (acc & Ha & Hrep).
    rewrite (rep_wells _ _ _ Hrep c) in Hl.
    destruct (decide (bucket c acc = [])); [done|]. injection Hl as <-.
    apply elem_of_bucket in Hw.
    destruct (accepted_inv _ _ _ Ha Hw) as (r & _ & Hn).
    by eapply accepted_in_envelope.
  - intros out f w H Hf Hw.
    destruct (file_record_accepted _ _ _ _ H Hf Hw) as (r & _ & Hn).
    by eapply accepted_in_envelope.
  - intros r st E. apply normalize_row_reject_iff in E.
    by rewrite process_row_normalize, E.
  - intros out H.
    destruct (process_wells_inv _ _ H) as (st & acc & Hs & Hw & Ha & Hrep).
    unfold process_wells, mbind, res_bind.
    pose proof (scan_from_spec
                  (filter (fun r => coords_valid r = true) rows)
                  _ _ _ represents_initial) as Hf.
    fold (scan (filter (fun r => coords_valid r = true) rows)) in Hf.
    rewrite accepted_filter, Ha in Hf.
    destruct (scan (filter _ rows)) as [st'|e]; [|done].
    destruct Hf as (acc' & [= <-] & Hrep').
    eapply write_artifacts_wells; [|exact Hw].
    by eapply represents_wells_eq.
Qed.

Lemma coordinates_in_envelope_witness :
  process_row initial_state row_latitude_50 = Ok (bump_total initial_state)
  /\ exists out,
       process_wells sample_rows = Ok out
       /\ forall f w, f ∈ county_files out -> w ∈ cf_wells f -> in_envelope w.
Proof.
  split.
  - apply (proj1 (proj2 (proj2 (coordinates_in_envelope sample_rows)))).
    vm_compute. reflexivity.
  - eexists. split; [vm_compute; reflexivity|].
    intros f w.
    apply (proj1 (proj2 (coordinates_in_envelope sample_rows))).
    vm_compute. reflexivity.
Defined.

(** ** Least and greatest items *)

Section MinMax.

Context {A : Type} (lt : A -> A -> bool) (le : A -> A -> Prop)
        (P : A -> Prop).
Hypothesis le_refl : forall x, P x -> le x x.
Hypothesis le_trans :
  forall x y z, P x -> P y -> P z -> le x y -> le y z -> le x z.
Hypothesis lt_le : forall x y, P x -> P y -> lt x y = true -> le x y.
Hypothesis nlt_le : forall x y, P x -> P y -> lt x y = false -> le y x.

Lemma min_from_spec (l : list A) : forall cur,
  P cur -> Forall P l ->
  P (min_from lt cur l)
  /\ min_from lt cur l ∈ cur :: l
  /\ Forall (le (min_from lt cur l)) (cur :: l).
Proof.
  induction l as [|x l IH]; intros cur Hc Hl; simpl.
  - repeat split; [done|left|]. by repeat constructor; auto.
  - apply Forall_cons in Hl as [Hx Hl].
    set (cur' := if lt x cur then x else cur).
    assert (Hc' : P cur') by (unfold cur'; by destruct (lt x cur)).
    destruct (IH cur' Hc' Hl) as (Hp & Hin & Hall).
    apply Forall_cons in Hall as [Hm Hall].
    split; [done|]. split.
    + apply elem_of_cons in Hin as [->|Hin].
      * unfold cur'. destruct (lt x cur); [right; left|left].
      * by do 2 right.
    + unfold cur' in Hm. destruct (lt x cur) eqn:E.
      * repeat constructor; eauto.
      * repeat constructor; eauto.
Qed.

Lemma max_from_spec (l : list A) : forall cur,
  P cur -> Forall P l ->
  P (max_from lt cur l)
  /\ max_from lt cur l ∈ cur :: l
  /\ Forall (fun x => le x (max_from lt cur l)) (cur :: l).
Proof.
  induction l as [|x l IH]; intros cur Hc Hl; simpl.
  - repeat split; [done|left|]. by repeat constructor; auto.
  - apply Forall_cons in Hl as [Hx Hl].
    set (cur' := if lt cur x then x else cur).
    assert (Hc' : P cur') by (unfold cur'; by destruct (lt cur x)).
    destruct (IH cur' Hc' Hl) as (Hp & Hin & Hall).
    apply Forall_cons in Hall as [Hm Hall].
    split; [done|]. split.
    + apply elem_of_cons in Hin as [->|Hin].
      * unfold cur'. destruct (lt cur x); [right; left|left].
      * by do 2 right.
    + unfold cur' in Hm. destruct (lt cur x) eqn:E.
      * repeat constructor; eauto.
      * repeat constructor; eauto.
Qed.

End MinMax.

Lemma Z_ltb_order :
  (forall x : Z, True -> (x <= x)%Z)
  /\ (forall x y z : Z, True -> True -> True ->
        (x <= y)%Z -> (y <= z)%Z -> (x <= z)%Z)
  /\ (forall x y : Z, True -> True -> (x <? y)%Z = true -> (x <= y)%Z)
  /\ (forall x y : Z, True -> True -> (x <? y)%Z = false -> (y <= x)%Z).
Proof.
  repeat split; intros; lia.
Qed.

Lemma py_min_Z (ds : list Z) :
  ds <> [] ->
  exists lo, py_min Z.ltb ds = Ok lo /\ lo ∈ ds /\ Forall (Z.le lo) ds.
Proof.
  destruct ds as [|d ds]; [done|]. intros _. simpl.
  destruct Z_ltb_order as (R & T & L & N).
  destruct (min_from_spec Z.ltb Z.le (fun _ => True) R T L N ds d I)
    as (_ & ? & ?); [by apply Forall_true|].
  by eexists.
Qed.

Lemma py_max_Z (ds : list Z) :
  ds <> [] ->
  exists hi, py_max Z.ltb ds = Ok hi /\ hi ∈ ds
             /\ Forall (fun d => (d <= hi)%Z) ds.
Proof.
  destruct ds as [|d ds]; [done|]. intros _. simpl.
  destruct Z_ltb_order as (R & T & L & N).
  destruct (max_from_spec Z.ltb Z.le (fun _ => True) R T L N ds d I)
    as (_ & ? & ?); [by apply Forall_true|].
  by eexists.
Qed.

Lemma float_lt_order :
  (forall x, finite x -> float_le x x = true)
  /\ (forall x y z, finite x -> finite y -> finite z ->
        float_le x y = true -> float_le y z = true -> float_le x z = true)
  /\ (forall x y, finite x -> finite y ->
        float_lt x y = true -> float_le x y = true)
  /\ (forall x y, finite x -> finite y ->
        float_lt x y = false -> float_le y x = true).
Proof.
  repeat split.
  - intros ? [q ->]. simpl. apply Qle_bool_iff, Qle_refl.
  - intros ? ? ? [p ->] [q ->] [t ->]. simpl. rewrite !Qle_bool_iff.
    apply Qle_trans.
  - intros ? ? [p ->] [q ->]. simpl. intros H%negb_true_iff.
    apply Qle_bool_iff. destruct (Qlt_le_dec p q) as [?|Hc].
    + by apply Qlt_le_weak.
    + apply Qle_bool_iff in Hc. congruence.
  - intros ? ? [p ->] [q ->]. simpl. intros H%negb_false_iff. done.
Qed.

Lemma py_min_float (xs : list pyfloat) :
  xs <> [] -> Forall finite xs ->
  exists lo, py_min float_lt xs = Ok lo /\ lo ∈ xs
             /\ Forall (fun x => float_le lo x = true) xs.
Proof.
  destruct xs as [|x xs]; [done|]. intros _ [Hx Hxs]%Forall_cons. simpl.
  destruct float_lt_order as (R & T & L & N).
  destruct (min_from_spec float_lt (fun a b => float_le a b = true) finite
              R T L N xs x Hx Hxs) as (_ & ? & ?).
  by eexists.
Qed.

Lemma py_max_float (xs : list pyfloat) :
  xs <> [] -> Forall finite xs ->
  exists hi, py_max float_lt xs = Ok hi /\ hi ∈ xs
             /\ Forall (fun x => float_le x hi = true) xs.
Proof.
  destruct xs as [|x xs]; [done|]. intros _ [Hx Hxs]%Forall_cons. simpl.
  destruct float_lt_order as (R & T & L & N).
  destruct (max_from_spec float_lt (fun a b => float_le a b = true) finite
              R T L N xs x Hx Hxs) as (_ & ? & ?).
  by eexists.
Qed.

(** ** Bounding boxes *)

Lemma scan_bucket_in_envelope (rows : list row) (st : scan_state)
    (c : string) (ws : list well) :
  scan rows = Ok st -> wells_by_county st !! c = Some ws ->
  Forall in_envelope ws.
Proof.
  intros Hs Hl. apply Forall_forall. intros w Hw.
  destruct (scan_spec _ _ Hs) as (acc & Ha & Hrep).
  rewrite (rep_wells _ _ _ Hrep c) in Hl.
  destruct (decide (bucket c acc = [])); [done|]. injection Hl as <-.
  apply elem_of_bucket in Hw.
  destruct (accepted_inv _ _ _ Ha Hw) as (r & _ & Hn).
  by eapply accepted_in_envelope.
Qed.

Lemma Forall2_items {A B C} (P : A -> Prop) (R : A -> B -> Prop)
    (S : B -> C -> Prop) (g : A -> C) (l : list A) (k : list B) :
  Forall P l -> Forall2 R l k ->
  (forall x y, P x -> R x y -> S y (g x)) ->
  Forall2 S k (g <$> l).
Proof.
  intros HP HR HS. induction HR as [|x y l k Hxy _ IH].
  - constructor.
  - apply Forall_cons in HP as [Hx HP]. rewrite fmap_cons.
    constructor; auto.
Qed.

Lemma index_entry_tight (c : string) (ws : list well) (e : Index.t) :
  Forall in_envelope ws -> index_entry (c, ws) = Ok e ->
  tight_bounds (Index.bounds e) ws.
Proof.
  intros Henv. unfold index_entry, mbind, res_bind.
  destruct ws as [|w0 ws0]; [done|]. set (ws := w0 :: ws0) in *.
  assert (Hne : forall f : well -> pyfloat, f <$> ws <> [])
    by (intros f; unfold ws; by rewrite fmap_cons).
  assert (Hla : Forall finite (lat <$> ws)).
  { apply Forall_fmap. eapply Forall_impl; [exact Henv|].
    intros w (qa & qo & E & _). unfold compose, finite. by exists qa. }
  assert (Hlo : Forall finite (lon <$> ws)).
  { apply Forall_fmap. eapply Forall_impl; [exact Henv|].
    intros w (qa & qo & _ & E & _). unfold compose, finite. by exists qo. }
  destruct (py_min_float _ (Hne lat) Hla) as (a1 & -> & Hi1 & Ha1).
  destruct (py_max_float _ (Hne lat) Hla) as (a2 & -> & Hi2 & Ha2).
  destruct (py_min_float _ (Hne lon) Hlo) as (o1 & -> & Hi3 & Ha3).
  destruct (py_max_float _ (Hne lon) Hlo) as (o2 & -> & Hi4 & Ha4).
  intros [= <-]. unfold tight_bounds. simpl.
  rewrite Forall_fmap, Forall_forall in Ha1, Ha2, Ha3, Ha4.
  apply list_elem_of_fmap in Hi1 as (w1 & -> & ?).
  apply list_elem_of_fmap in Hi2 as (w2 & -> & ?).
  apply list_elem_of_fmap in Hi3 as (w3 & -> & ?).
  apply list_elem_of_fmap in Hi4 as (w4 & -> & ?).
  split; [|split; [by exists w1|split; [by exists w2|
                    split; [by exists w3|by exists w4]]]].
  intros w Hw. repeat split.
  - by apply (Ha1 w). 
  - by apply (Ha2 w).
  - by apply (Ha3 w).
  - by apply (Ha4 w).
Qed.



(** ** Depth statistics *)

Lemma true_depths_nonzero (ws : list well) :
  true_depths ws = filter (fun z => z <> 0%Z) (present_depths ws).
Proof.
  induction ws as [|w ws IH]; [done|].
  change (true_depths (w :: ws))
    with (match (if int_truthy (depth w) then depth w else None) with
          | Some z => z :: true_depths ws
          | None => true_depths ws
          end).
  change (present_depths (w :: ws))
    with (match depth w with
          | Some z => z :: present_depths ws
          | None => present_depths ws
          end).
  rewrite IH. destruct (depth w) as [z|]; [|done].
  rewrite filter_cons. unfold int_truthy.
  destruct (decide (z <> 0%Z)) as [Hz|Hz].
  - by rewrite (proj2 (Z.eqb_neq z 0) Hz).
  - assert (z = 0%Z) as -> by lia. done.
Qed.

Lemma county_summary_statistics (c : string) (ws : list well)
    (s : Summary.t) :
  county_summary (c, ws) = Ok s ->
  Summary.name s = c /\ Summary.count s = length ws
  /\ depth_statistics (true_depths ws) s.
Proof.
  unfold county_summary, mbind, res_bind.
  destruct (true_depths ws) as [|d ds] eqn:E.
  - intros [= <-]. done.
  - destruct (py_truediv _ _) as [m|] eqn:Em; [|done].
    destruct (py_round m) as [a|] eqn:Ea; [|done].
    destruct (py_min_Z (d :: ds)) as (lo & Hlo & ? & ?); [done|].
    destruct (py_max_Z (d :: ds)) as (hi & Hhi & ? & ?); [done|].
    rewrite Hlo, Hhi. intros [= <-].
    split; [done|]. split; [done|].
    split; [by exists m, a|]. split; [by exists lo|by exists hi].
Qed.

(** C2, the counterexample: the records of Kern hold the depths 0 and
    100, and the summary gives 100 for the least depth. *)
Lemma zero_depth_left_out_of_summary :
  exists out, process_wells rows_zero_and_100 = Ok out
              /\ ~ summary_of_present_depths out.
Proof.
  eexists. split; [vm_compute; reflexivity|].
  unfold summary_of_present_depths. simpl.
  intros H. apply Forall2_cons_1 in H as [[_ Hd] _].
  destruct Hd as (_ & (lo & Hlo & _ & Hall) & _).
  injection Hlo as <-.
  apply Forall_cons in Hall as [Hle _]. by apply Hle.
Qed.

(** C2, amended.  Region by region, the summary gives the statistics of
    the non-zero depth values present in the region's records: their
    rounded mean, their least and their greatest; and when no record of
    the region has a non-zero depth, the three fields are null. *)
Theorem summary_of_nonzero_depths (rows : list row) (out : output) :
  process_wells rows = Ok out ->
  Forall2 (fun s f =>
             Summary.name s = cf_county f
             /\ depth_statistics
                  (filter (fun z => z <> 0%Z) (present_depths (cf_wells f)))
                  s)
          (counties_json out) (county_files out).
Proof.
  intros H.
  destruct (process_wells_inv _ _ H) as (st & acc & _ & Hw & _ & _).
  destruct (write_artifacts_inv _ _ Hw) as (_ & Hcs & -> & _).
  eapply (Forall2_items (fun _ => True)); [|exact Hcs|].
  - by apply Forall_true.
  - intros [c ws] s _ Hs. simpl.
    apply county_summary_statistics in Hs as (? & _ & ?).
    by rewrite <- true_depths_nonzero.
Qed.

Lemma summary_of_nonzero_depths_witness :
  exists out,
    process_wells rows_zero_and_100 = Ok out
    /\ Forall2 (fun s f =>
                  Summary.name s = cf_county f
                  /\ depth_statistics
                       (filter (fun z => z <> 0%Z)
                               (present_depths (cf_wells f))) s)
               (counties_json out) (county_files out).
Proof.
  eexists. split; [vm_compute; reflexivity|].
  apply (summary_of_nonzero_depths rows_zero_and_100).
  vm_compute. reflexivity.
Defined.

(** ** Depth zero *)





(** ** The documents are always written *)

Section Range.

Local Open Scope Q_scope.

Lemma Qround_half_even_le (y : Q) :
  inject_Z (Qround_half_even y) <= y + (1 # 2).
Proof.
  pose proof (Qfloor_le y) as Hf.
  destruct (Qround_half_even_cases y) as [->|[-> Hr]].
  - assert (0 <= 1 # 2) by discriminate. lra.
  - rewrite inject_Z_plus. change (inject_Z 1) with 1. lra.
Qed.

Lemma Qround_half_even_nonneg (y : Q) :
  0 <= y -> (0 <= Qround_half_even y)%Z.
Proof.
  intros Hy.
  assert (Hf : (0 <= Qfloor y)%Z).
  { rewrite <- (Qfloor_Z 0). by apply Qfloor_resp_le. }
  destruct (Qround_half_even_cases y) as [->|[-> _]]; lia.
Qed.

Lemma pow2_pos (x : Z) : 0 < pow2 x.
Proof. apply Qpower_0_lt. reflexivity. Qed.

Lemma pow2_le (x y : Z) : (x <= y)%Z -> pow2 x <= pow2 y.
Proof. intros H. apply Qpower_le_compat_l; [done|discriminate]. Qed.

(** For [q >= 1] the exponent is that of the binade of [q]. *)
Lemma Qlog2_floor_ge1 (q : Q) :
  1 <= q ->
  (0 <= Qlog2_floor q)%Z
  /\ inject_Z (2 ^ Qlog2_floor q) <= q
  /\ q < inject_Z (2 ^ (Qlog2_floor q + 1)).
Proof.
  intros H1. unfold Qlog2_floor.
  rewrite (proj2 (Qle_bool_iff 1 q) H1).
  assert (Hf : (1 <= Qfloor q)%Z).
  { rewrite <- (Qfloor_Z 1). by apply Qfloor_resp_le. }
  destruct (Z.log2_spec (Qfloor q)) as [Hlo Hhi]; [lia|].
  split; [apply Z.log2_nonneg|]. split.
  - eapply Qle_trans; [|apply Qfloor_le]. by rewrite <- Zle_Qle.
  - eapply Qlt_le_trans; [apply Qlt_floor|].
    rewrite <- Zle_Qle.
    replace (Z.log2 (Qfloor q) + 1)%Z with (Z.succ (Z.log2 (Qfloor q)))
      by lia.
    lia.
Qed.

(** Below 1 the exponent is not positive. *)
Lemma Qlog2_floor_lt1 (q : Q) :
  q < 1 -> (Qlog2_floor q <= 0)%Z.
Proof.
  intros H1. unfold Qlog2_floor.
  destruct (Qle_bool 1 q) eqn:E.
  - apply Qle_bool_iff in E. lra.
  - pose proof (Z.log2_up_nonneg (Qceiling (/ q))). lia.
Qed.

Lemma max_double_closed :
  (3 # 2) <= inject_Z max_double
  /\ inject_Z (2 ^ 1023) + inject_Z (2 ^ 970) * (1 # 2)
     <= inject_Z max_double
  /\ (max_double < 2 ^ 1024)%Z.
Proof.
  split; [|split].
  - apply Qle_bool_iff. vm_compute. reflexivity.
  - apply Qle_bool_iff. vm_compute. reflexivity.
  - apply Z.ltb_lt. vm_compute. reflexivity.
Qed.

(** The rounding step of [b64_of_Q]: the rounded magnitude is not
    negative, and it does not exceed the greatest binary64 value as soon
    as the magnitude does not, or as soon as it is below [2^1024]. *)
Lemma b64_round_core (q : Q) :
  0 < q ->
  let x := Z.max (Qlog2_floor q - 52) (-1074) in
  let m := Qround_half_even (q / pow2 x) in
  let v := inject_Z m * pow2 x in
  (0 <= m)%Z
  /\ 0 <= v
  /\ (q <= inject_Z max_double \/ v < pow2 1024 ->
      v <= inject_Z max_double).
Proof.
  intros Hq x m v.
  pose proof (pow2_pos x) as Hpx.
  destruct max_double_closed as (C1 & C2 & C3).
  assert (Hy : 0 <= q / pow2 x).
  { apply Qle_shift_div_l; [done|]. lra. }
  assert (Hm : (0 <= m)%Z) by (by apply Qround_half_even_nonneg).
  assert (Hmq : 0 <= inject_Z m).
  { change 0 with (inject_Z 0). by rewrite <- Zle_Qle. }
  assert (Hv0 : 0 <= v).
  { unfold v. apply Qmult_le_0_compat; [done|]. by apply Qlt_le_weak. }
  assert (Hv : v <= q + pow2 x * (1 # 2)).
  { unfold v.
    assert (E : q + pow2 x * (1 # 2) == (q / pow2 x + (1 # 2)) * pow2 x).
    { field. intros E0. rewrite E0 in Hpx. by apply Qlt_irrefl in Hpx. }
    rewrite E. apply Qmult_le_compat_r; [|by apply Qlt_le_weak].
    apply Qround_half_even_le. }
  split; [done|]. split; [done|]. intros Hcase.
  destruct (Qlt_le_dec q 1) as [Hlt|Hge].
  - pose proof (Qlog2_floor_lt1 q Hlt) as He.
    assert (Hx : pow2 x <= 1).
    { change 1 with (pow2 0). apply pow2_le. lia. }
    lra.
  - destruct (Qlog2_floor_ge1 q Hge) as (He0 & Hlo & Hhi).
    set (e := Qlog2_floor q) in *.
    destruct (Z_le_gt_dec e 1022) as [Hsmall|Hbig].
    + assert (Hx : pow2 x <= inject_Z (2 ^ 970)).
      { rewrite <- (pow2_nonneg 970) by lia. apply pow2_le. lia. }
      assert (Hq' : q < inject_Z (2 ^ 1023)).
      { eapply Qlt_le_trans; [exact Hhi|]. rewrite <- Zle_Qle.
        apply Z.pow_le_mono_r; lia. }
      lra.
    + assert (Ex : x = (e - 52)%Z) by lia.
      assert (Hx0 : (0 <= x)%Z) by lia.
      assert (Ev : v == inject_Z (m * 2 ^ x)).
      { unfold v. by rewrite inject_Z_mult, (pow2_nonneg x Hx0). }
      rewrite Ev. rewrite <- Zle_Qle.
      destruct Hcase as [HA|HB].
      * assert (He : e = 1023%Z).
        { assert ((2 ^ e < 2 ^ 1024)%Z) as Hp.
          { rewrite Zlt_Qlt. eapply Qle_lt_trans; [exact Hlo|].
            eapply Qle_lt_trans; [exact HA|]. by rewrite <- Zlt_Qlt. }
          apply Z.pow_lt_mono_r_iff in Hp; lia. }
        assert (Ex' : x = 971%Z) by lia.
        assert (Hmb : (0 <= m <= 2 ^ 53 - 1)%Z).
        { apply Qround_half_even_bounds; [done|].
          apply Qle_shift_div_r; [done|].
          rewrite Ex', (pow2_nonneg 971) by lia.
          by rewrite <- inject_Z_mult. }
        rewrite Ex'. unfold max_double.
        apply Z.mul_le_mono_nonneg_r; [|lia].
        apply Z.pow_nonneg. lia.
      * rewrite Ev, (pow2_nonneg 1024) in HB by lia.
        rewrite <- Zlt_Qlt in HB.
        replace x with (971 + (x - 971))%Z in HB |- * by lia.
        rewrite Z.pow_add_r in HB |- * by lia.
        set (k := (m * 2 ^ (x - 971))%Z).
        assert (Hp : (0 < 2 ^ 971)%Z) by (apply Z.pow_pos_nonneg; lia).
        assert (Hk : (k * 2 ^ 971 < 2 ^ 53 * 2 ^ 971)%Z).
        { rewrite <- Z.pow_add_r by lia. simpl Z.add.
          unfold k. rewrite <- Z.mul_assoc, (Z.mul_comm (2 ^ (x - 971))).
          exact HB. }
        apply Z.mul_lt_mono_pos_r in Hk; [|done].
        unfold max_double.
        replace (m * (2 ^ 971 * 2 ^ (x - 971)))%Z with (k * 2 ^ 971)%Z
          by (unfold k; ring).
        apply Z.mul_le_mono_nonneg_r; lia.
Qed.



End Range.


Lemma truncation_bound (q : Q) (M : Z) :
  (Qabs q <= inject_Z M)%Q ->
  (Z.abs (Z.quot (Qnum q) (Z.pos (Qden q))) <= M)%Z.
Proof.
  destruct q as [n d]. unfold Qle. simpl. intros H.
  rewrite <- (Z.quot_abs n (Z.pos d)) by done.
  change (Z.abs (Z.pos d)) with (Z.pos d).
  apply Z.quot_le_upper_bound; lia.
Qed.








Lemma true_depths_subset (ws : list well) (d : Z) :
  d ∈ true_depths ws -> exists w, w ∈ ws /\ depth w = Some d.
Proof.
  unfold true_depths. rewrite list_elem_of_omap.
  intros (w & Hw & H). exists w. split; [done|].
  by destruct (int_truthy (depth w)).
Qed.



Lemma extract_year_total (date_str : option string) :
  exists y, extract_year date_str = Ok y.
Proof.
  unfold extract_year. destruct date_str as [d|]; [|by eexists].
  destruct (_ && _); [|by eexists].
  destruct (PyStr.contains "/" d).
  - destruct (length (PyStr.split "/" d) =? 3)%nat eqn:E; [|by eexists].
    destruct (PyStr.split "/" d !! 2%nat) as [p|] eqn:Ep.
    + rewrite py_int_or_absent. by eexists.
    + by eexists.
  - destruct (PyStr.contains "-" d); [|by eexists].
    rewrite py_int_or_absent. by eexists.
Qed.

(** The exceptions a row can raise: the [OverflowError] of an infinite
    depth or water level, and the [AttributeError] of a [None] county. *)
Lemma normalize_row_raises (r : row) (e : exn) :
  normalize_row r = Raise e -> e = OverflowError \/ e = AttributeError.
Proof.
  unfold normalize_row, mbind, res_bind.
  destruct (parse_float_total (row_get r "DECIMALLATITUDE")) as [la ->].
  destruct (parse_float_total (row_get r "DECIMALLONGITUDE")) as [lo ->].
  destruct la as [la|], lo as [lo|]; try done.
  destruct (lat_in_envelope la) eqn:Ela; [|done].
  destruct (lon_in_envelope lo) eqn:Elo; [|done]. simpl.
  destruct (parse_int (row_get r "TOTALDRILLDEPTH")) as [td|e1] eqn:E1.
  2: { apply parse_int_raises in E1 as ->. intros [= <-]. by left. }
  destruct (parse_int (row_get r "TOTALCOMPLETEDDEPTH")) as [cd|e2] eqn:E2.
  2: { apply parse_int_raises in E2 as ->. intros [= <-]. by left. }
  destruct (row_get_default r "COUNTYNAME" "Unknown") as [cell|].
  2: { intros [= <-]. by right. }
  simpl.
  destruct (round5_lat _ Ela) as (la5 & -> & _).
  destruct (round5_lon _ Elo) as (lo5 & -> & _).
  destruct (parse_int (row_get r "STATICWATERLEVEL")) as [sta|e3] eqn:E3.
  2: { apply parse_int_raises in E3 as ->. intros [= <-]. by left. }
  destruct (parse_float_total (row_get r "WELLYIELD")) as [yi ->].
  destruct (extract_year_total (row_get_default r "DATEWORKENDED" ""))
    as [ye ->].
  done.
Qed.

(** ** The directory *)

Lemma directory_as_list_to_map (l : list (string * document))
    (m : gmap string document) :
  foldl (fun m fd => <[fd.1 := fd.2]> m) m l
  = foldr (fun fd m => <[fd.1 := fd.2]> m) m (reverse l).
Proof.
  revert m. induction l as [|fd l IH]; intros m; [done|].
  simpl. by rewrite IH, reverse_cons, foldr_app.
Qed.

Lemma directory_lookup (l : list (string * document)) (k : string)
    (d : document) :
  NoDup l.*1 -> (k, d) ∈ l ->
  foldl (fun (m : gmap string document) fd => <[fd.1 := fd.2]> m) ∅ l !! k
  = Some d.
Proof.
  intros Hnd Hin. rewrite directory_as_list_to_map.
  assert (E : foldr (fun fd m => <[fd.1 := fd.2]> m) ∅ (reverse l)
              = (list_to_map (reverse l) : gmap string document)).
  { generalize (reverse l). intros l'.
    induction l' as [|[k' d'] l' IH]; [done|]. simpl. by rewrite IH. }
  rewrite E. apply elem_of_list_to_map_1.
  - by rewrite fmap_reverse, reverse_Permutation.
  - by rewrite reverse_Permutation.
Qed.

(** When the names of the files of a run are distinct, the directory
    holds every county file as it was written. *)
Lemma directory_county_file (out : output) (f : county_file) :
  NoDup (writes out).*1 -> f ∈ county_files out ->
  directory out !! cf_filename f = Some (DWells (cf_wells f)).
Proof.
  intros Hnd Hf. apply directory_lookup; [done|].
  unfold writes. right. apply elem_of_app. left.
  apply list_elem_of_fmap. by exists f.
Qed.

(** No escaping of colliding names: both regions are written to
    [st-louis.json], and the directory keeps the later one only. *)
Lemma colliding_names_overwrite :
  exists out f1 f2 ws,
    process_wells rows_colliding = Ok out
    /\ county_files out = [f1; f2]
    /\ cf_county f1 = "St Louis" /\ cf_county f2 = "St. Louis"
    /\ cf_filename f1 = "st-louis.json" /\ cf_filename f2 = "st-louis.json"
    /\ records_with_coords (out_stats out) = 2%nat
    /\ directory out !! "st-louis.json" = Some (DWells (cf_wells f2))
    /\ cf_wells f2 = ws /\ length ws = 1%nat.
Proof.
  eexists _, _, _, _. split; [vm_compute; reflexivity|].
  repeat split; vm_compute; reflexivity.
Qed.

(** * Further properties of the program *)

(** ** The two parsers *)

(** X1.  [parse_float] never raises.  It gives a float exactly for a
    cell that is present, not blank once trimmed, and a float literal;
    it gives [None] for a missing cell, a blank cell and a cell that
    [float] refuses. *)
Theorem parse_float_result (val : option string) :
  (forall x, parse_float val = Ok (Some x)
             <-> exists s, val = Some s /\ PyStr.strip s <> ""
                           /\ py_float s = Ok x)
  /\ (parse_float val = Ok None
      <-> val = None
          \/ exists s, val = Some s
                       /\ (PyStr.strip s = ""
                           \/ py_float s = Raise ValueError))
  /\ (forall e, parse_float val <> Raise e).
Proof.
  split; [intros x; apply parse_float_Some|]. split.
  - split.
    + intros H. destruct val as [s|]; [right|by left]. exists s.
      split; [done|].
      destruct (decide (PyStr.strip s = "")) as [E|E]; [by left|right].
      destruct (py_float s) as [x|e] eqn:Ef.
      * assert (parse_float (Some s) = Ok (Some x)) as H'
          by (apply parse_float_Some; by exists s).
        congruence.
      * by apply py_float_raises in Ef as ->.
    + intros [->|(s & -> & Hs)]; [done|].
      unfold parse_float, try_except, mbind, res_bind.
      destruct (PyStr.truthy s); [|done]. simpl.
      destruct Hs as [->|Hf]; [done|].
      destruct (PyStr.truthy (PyStr.strip s)); [|done]. by rewrite Hf.
  - intros e H. destruct (parse_float_total val) as [o Ho]. congruence.
Qed.

Lemma quot_truncates (q : Q) :
  let n := Z.quot (Qnum q) (Z.pos (Qden q)) in
  ((0 <= q)%Q -> (inject_Z n <= q)%Q /\ (q < inject_Z n + 1)%Q)
  /\ ((q <= 0)%Q -> (inject_Z n - 1 < q)%Q /\ (q <= inject_Z n)%Q).
Proof.
  destruct q as [a d]. cbn [Qnum Qden]. cbv zeta.
  set (n := Z.quot a (Z.pos d)).
  pose proof (Z.quot_rem' a (Z.pos d)) as Hqr. fold n in Hqr.
  change 1%Q with (inject_Z 1). unfold Qminus.
  rewrite <- inject_Z_opp, <- !inject_Z_plus.
  unfold Qle, Qlt. cbn [Qnum Qden inject_Z].
  assert (Hp : (0 <= a -> 0 <= Z.rem a (Z.pos d) < Z.pos d)%Z)
    by (intros; apply Z.rem_bound_pos; lia).
  assert (Hn : (a <= 0 -> - Z.pos d < Z.rem a (Z.pos d) <= 0)%Z)
    by (intros; apply Z.rem_bound_pos_neg; lia).
  clearbody n. revert Hqr Hp Hn. generalize (Z.rem a (Z.pos d)).
  intros r Hqr Hp Hn. split; intros Ha; nia.
Qed.

(** X2.  [parse_int] gives [int(float(cell))]: for a cell that is not
    blank and reads as a finite float, the integer between zero and that
    float that is nearest to it (truncation toward zero).  It raises for
    one kind of cell only, with [OverflowError]: a cell that reads as an
    infinite float.  A missing or blank cell, a cell that [float]
    refuses and a NaN give [None]. *)
Theorem parse_int_result (val : option string) :
  (forall n, parse_int val = Ok (Some n)
     <-> exists s, val = Some s /\ PyStr.strip s <> ""
           /\ (py_float s = Ok FNegZero /\ n = 0%Z
               \/ exists q, py_float s = Ok (FFin q)
                    /\ n = Z.quot (Qnum q) (Z.pos (Qden q))))
  /\ (forall n s q, val = Some s -> py_float s = Ok (FFin q) ->
        parse_int val = Ok (Some n) ->
        ((0 <= q)%Q -> (inject_Z n <= q)%Q /\ (q < inject_Z n + 1)%Q)
        /\ ((q <= 0)%Q -> (inject_Z n - 1 < q)%Q /\ (q <= inject_Z n)%Q))
  /\ (forall e, parse_int val = Raise e
        <-> e = OverflowError
            /\ exists s neg, val = Some s /\ PyStr.strip s <> ""
                             /\ py_float s = Ok (FInf neg))
  /\ (parse_int val = Ok None
      <-> val = None
          \/ exists s, val = Some s
               /\ (PyStr.strip s = "" \/ py_float s = Raise ValueError
                   \/ py_float s = Ok FNan)).
Proof.
  assert (Hnb : forall s, PyStr.strip s <> "" ->
            parse_int (Some s)
            = match py_float s with
              | Ok FNan => Ok None
              | Ok (FInf _) => Raise OverflowError
              | Ok FNegZero => Ok (Some 0%Z)
              | Ok (FFin q) => Ok (Some (Z.quot (Qnum q) (Z.pos (Qden q))))
              | Raise _ => Ok None
              end).
  { intros s Hs. unfold parse_int, try_except, mbind, res_bind.
    assert (PyStr.truthy (PyStr.strip s) = true) as ->
      by (destruct (PyStr.strip s); done).
    assert (PyStr.truthy s = true) as ->
      by (destruct s; [by exfalso|done]).
    simpl. destruct (py_float s) as [[|neg| |q]|e] eqn:E; try done.
    by apply py_float_raises in E as ->. }
  assert (Hb : forall s, PyStr.strip s = "" -> parse_int (Some s) = Ok None).
  { intros s Hs. unfold parse_int, try_except, mbind, res_bind.
    rewrite Hs. by destruct (PyStr.truthy s). }
  assert (Hcase : forall s, {PyStr.strip s = ""} + {PyStr.strip s <> ""})
    by (intros s; apply (decide _)).
  split; [|split; [|split]].
  - intros n. split.
    + destruct val as [s|]; [|done]. destruct (Hcase s) as [E|E].
      { by rewrite (Hb s E). }
      rewrite (Hnb s E). intros H. exists s. split; [done|]. split; [done|].
      destruct (py_float s) as [[|neg| |q]|e]; try done.
      * injection H as <-. by left.
      * injection H as <-. right. by exists q.
    + intros (s & -> & Hs & [[Hf ->]|(q & Hf & ->)]);
        by rewrite (Hnb s Hs), Hf.
  - intros n s q -> Hf H. destruct (Hcase s) as [E|E].
    { by rewrite (Hb s E) in H. }
    rewrite (Hnb s E), Hf in H. injection H as <-. apply quot_truncates.
  - intros e. split.
    + intros H. pose proof (parse_int_raises _ _ H) as ->. split; [done|].
      destruct val as [s|]; [|done]. destruct (Hcase s) as [E|E].
      { by rewrite (Hb s E) in H. }
      rewrite (Hnb s E) in H. exists s.
      destruct (py_float s) as [[|neg| |q]|e]; try done. by exists neg.
    + intros (-> & s & neg & -> & Hs & Hf). by rewrite (Hnb s Hs), Hf.
  - split.
    + destruct val as [s|]; [|by left]. intros H. right. exists s.
      split; [done|]. destruct (Hcase s) as [E|E]; [by left|right].
      rewrite (Hnb s E) in H.
      destruct (py_float s) as [[|neg| |q]|e] eqn:Ef; try done.
      * by right.
      * left. by apply py_float_raises in Ef as ->.
    + intros [->|(s & -> & Hs)]; [done|].
      destruct (Hcase s) as [E|E]; [by apply Hb|].
      rewrite (Hnb s E). destruct Hs as [?|[-> | ->]]; done.
Qed.

Lemma parse_int_result_witness :
  ((0 <= 303 # 2)%Q -> (inject_Z 151 <= 303 # 2)%Q
                       /\ (303 # 2 < inject_Z 151 + 1)%Q)
  /\ ((303 # 2 <= 0)%Q -> (inject_Z 151 - 1 < 303 # 2)%Q
                          /\ (303 # 2 <= inject_Z 151)%Q).
Proof.
  apply (proj1 (proj2 (parse_int_result (Some "151.5")))
           151%Z "151.5" (303 # 2)).
  - reflexivity.
  - vm_compute. reflexivity.
  - vm_compute. reflexivity.
Defined.

(** ** How a run ends *)






(** ** The county files and the accepted rows *)






(** ** The counters *)





(** ** The order of the regions *)

#[local] Instance key_le_total {V} : Total (@key_le V).
Proof.
  intros a b. unfold key_le. destruct (String.leb_total a.1 b.1); auto.
Qed.

#[local] Instance key_le_trans {V} : Transitive (@key_le V).
Proof.
  intros a b c. unfold key_le. intros H1%Is_true_true H2%Is_true_true.
  apply Is_true_true.
  exact (transitivity (R := String.le) H1 H2).
Qed.

Lemma ltb_of_leb_ne (a b : string) :
  String.leb a b = true -> a <> b -> String.ltb a b = true.
Proof.
  unfold String.leb, String.ltb.
  destruct (String.compare a b) eqn:E; try done.
  intros _ Hne. by apply String.compare_eq_iff in E.
Qed.

Lemma sorted_keys_increasing {V} (m : gmap string V) :
  StronglySorted (fun a b => String.ltb a b = true) (sorted_items m).*1.
Proof.
  pose proof (StronglySorted_merge_sort key_le (map_to_list m)) as Hs.
  fold (sorted_items m) in Hs.
  assert (Hnd : NoDup (sorted_items m).*1).
  { rewrite sorted_items_perm. apply NoDup_fst_map_to_list. }
  induction Hs as [|[k v] l Hl IH Hall]; [constructor|].
  rewrite fmap_cons in Hnd |- *. apply NoDup_cons in Hnd as [Hk Hnd].
  constructor; [by apply IH|].
  apply Forall_fmap, Forall_forall. intros [k' v'] Hin.
  rewrite Forall_forall in Hall. specialize (Hall _ Hin).
  apply ltb_of_leb_ne; [exact Hall|].
  simpl. intros ->. apply Hk. apply list_elem_of_fmap. by exists (k', v').
Qed.

(** X6.  The three documents list the same regions in the same order:
    by strictly increasing name, code point by code point, so that no
    region comes twice. *)
Theorem regions_strictly_sorted (rows : list row) (out : output) :
  process_wells rows = Ok out ->
  StronglySorted (fun a b => String.ltb a b = true)
                 (cf_county <$> county_files out)
  /\ Summary.name <$> counties_json out = cf_county <$> county_files out
  /\ Index.name <$> index_json out = cf_county <$> county_files out.
Proof.
  intros H.
  destruct (process_wells_inv _ _ H) as (st & acc & _ & Hw & _ & _).
  destruct (write_artifacts_inv _ _ Hw) as (_ & Hcs & Hcf & Hix).
  assert (Hn : cf_county <$> county_files out
               = (sorted_items (wells_by_county st)).*1).
  { rewrite Hcf, <- list_fmap_compose. apply list_fmap_ext. by intros ? [c ws]. }
  rewrite Hn. split; [apply sorted_keys_increasing|]. split.
  - apply Forall2_fmap_eq. eapply Forall2_impl; [exact Hcs|].
    intros it s Hs. by apply county_summary_name_count in Hs as [? _].
  - apply Forall2_fmap_eq. eapply Forall2_impl; [exact Hix|].
    intros it e He. by apply index_entry_fields in He as (? & _).
Qed.

Lemma regions_strictly_sorted_witness :
  exists out,
    process_wells sample_rows = Ok out
    /\ StronglySorted (fun a b => String.ltb a b = true)
                      (cf_county <$> county_files out)
    /\ Summary.name <$> counties_json out = cf_county <$> county_files out
    /\ Index.name <$> index_json out = cf_county <$> county_files out.
Proof.
  eexists. split; [vm_compute; reflexivity|].
  apply (regions_strictly_sorted sample_rows). vm_compute. reflexivity.
Defined.



(** ** The running statistics *)

Lemma Forall2_elem_of_r {A B} (R : A -> B -> Prop) (l : list A)
    (k : list B) (y : B) :
  Forall2 R l k -> y ∈ k -> exists x, x ∈ l /\ R x y.
Proof.
  induction 1 as [|x y' l k Hxy _ IH]; intros Hin.
  - by apply elem_of_nil in Hin.
  - apply elem_of_cons in Hin as [->|Hin].
    + exists x. split; [left|done].
    + destruct (IH Hin) as (x' & ? & ?). exists x'. split; [by right|done].
Qed.

Lemma Forall2_elem_of_l {A B} (R : A -> B -> Prop) (l : list A)
    (k : list B) (x : A) :
  Forall2 R l k -> x ∈ l -> exists y, y ∈ k /\ R x y.
Proof.
  induction 1 as [|x' y l k Hxy _ IH]; intros Hin.
  - by apply elem_of_nil in Hin.
  - apply elem_of_cons in Hin as [->|Hin].
    + exists y. split; [left|done].
    + destruct (IH Hin) as (y' & ? & ?). exists y'. split; [by right|done].
Qed.

(** X8.  The statistics the loop keeps in [stats['counties']] and the
    summary computed after the loop from the buckets agree: every region
    of [counties.json] has an entry in [stats['counties']] with the same
    count, and the depth statistics of the summary are those of the
    depth samples of that entry; [stats['counties']] has no other
    region. *)
Theorem running_statistics_agree (rows : list row) (out : output) :
  process_wells rows = Ok out ->
  Forall (fun s =>
            exists e, counties (out_stats out) !! Summary.name s = Some e
                      /\ cs_count e = Summary.count s
                      /\ depth_statistics (cs_depths e) s)
         (counties_json out)
  /\ (forall c e, counties (out_stats out) !! c = Some e ->
        exists s, s ∈ counties_json out /\ Summary.name s = c).
Proof.
  intros H.
  destruct (process_wells_inv _ _ H) as (st & acc & _ & Hw & Ha & Hrep).
  destruct (write_artifacts_inv _ _ Hw) as (-> & Hcs & _ & _).
  split.
  - apply Forall_forall. intros s Hs.
    destruct (Forall2_elem_of_r _ _ _ _ Hcs Hs) as ([c ws] & Hit & Hsum).
    apply elem_of_sorted_items in Hit.
    rewrite (rep_wells _ _ _ Hrep c) in Hit.
    destruct (decide (bucket c acc = [])) as [|Hne] eqn:Ed; [done|].
    injection Hit as <-.
    apply county_summary_statistics in Hsum as (-> & -> & Hst).
    rewrite (rep_counties _ _ _ Hrep c), Ed. by eexists.
  - intros c e Hc. rewrite (rep_counties _ _ _ Hrep c) in Hc.
    destruct (decide (bucket c acc = [])) as [|Hne] eqn:Ed; [done|].
    assert (Hit : (c, bucket c acc) ∈ sorted_items (wells_by_county st)).
    { apply elem_of_sorted_items. by rewrite (rep_wells _ _ _ Hrep c), Ed. }
    destruct (Forall2_elem_of_l _ _ _ _ Hcs Hit) as (s & Hs & Hsum).
    exists s. split; [done|].
    by apply county_summary_name_count in Hsum as [? _].
Qed.

Lemma running_statistics_agree_witness :
  exists out,
    process_wells sample_rows = Ok out
    /\ Forall (fun s =>
                 exists e, counties (out_stats out) !! Summary.name s = Some e
                           /\ cs_count e = Summary.count s
                           /\ depth_statistics (cs_depths e) s)
              (counties_json out).
Proof.
  eexists. split; [vm_compute; reflexivity|].
  apply (proj1 (running_statistics_agree sample_rows _
                  ltac:(vm_compute; reflexivity))).
Defined.

(** ** The region key *)

Lemma rstrip_with_idem (sp : ascii -> bool) (s : string) :
  PyStr.rstrip_with sp (PyStr.rstrip_with sp s) = PyStr.rstrip_with sp s.
Proof.
  induction s as [|c s IH]; [done|]. simpl.
  destruct (PyStr.rstrip_with sp s) as [|a r] eqn:E.
  - destruct (sp c) eqn:Ec; [done|]. simpl. by rewrite Ec.
  - change (PyStr.rstrip_with sp (String c (String a r)))
      with (match PyStr.rstrip_with sp (String a r) with
            | EmptyString => if sp c then EmptyString
                             else String c EmptyString
            | r' => String c r'
            end).
    by rewrite IH.
Qed.

Lemma lstrip_with_fixed (sp : ascii -> bool) (c : ascii) (t : string) :
  sp c = false -> PyStr.lstrip_with sp (String c t) = String c t.
Proof. intros H. simpl. by rewrite H. Qed.

Lemma lstrip_with_head (sp : ascii -> bool) (s : string) :
  PyStr.lstrip_with sp s = ""
  \/ exists c t, PyStr.lstrip_with sp s = String c t /\ sp c = false.
Proof.
  induction s as [|c s IH]; [by left|]. simpl.
  destruct (sp c) eqn:E; [exact IH|]. right. by exists c, s.
Qed.

Lemma rstrip_with_head (sp : ascii -> bool) (c : ascii) (t : string) :
  sp c = false -> exists t', PyStr.rstrip_with sp (String c t) = String c t'.
Proof.
  intros H. simpl. destruct (PyStr.rstrip_with sp t).
  - rewrite H. by eexists.
  - by eexists.
Qed.

(** [strip] leaves nothing to strip. *)
Lemma strip_idem (s : string) : PyStr.strip (PyStr.strip s) = PyStr.strip s.
Proof.
  unfold PyStr.strip.
  destruct (lstrip_with_head PyStr.unicode_isspace s) as [->|(c & t & -> & Hc)].
  - done.
  - destruct (rstrip_with_head _ c t Hc) as [t' E].
    rewrite E, (lstrip_with_fixed _ c t' Hc), <- E.
    apply rstrip_with_idem.
Qed.

(** X9.  The region of an accepted row is never empty and has no white
    space left at either end: trimming it again changes nothing. *)
Theorem region_key_trimmed (r : row) (c : string) (w : well) :
  normalize_row r = Ok (Some (c, w)) ->
  c <> "" /\ PyStr.strip c = c.
Proof.
  intros H. destruct (normalize_row_accept_inv _ _ _ H)
    as [_ _ _ (cell & _ & ->) _ _ _].
  destruct (PyStr.truthy (PyStr.strip cell)) eqn:E.
  - split; [|apply strip_idem]. intros E0. by rewrite E0 in E.
  - done.
Qed.

Lemma region_key_trimmed_witness :
  "Kern" <> "" /\ PyStr.strip "Kern" = "Kern".
Proof.
  apply (region_key_trimmed row_kern "Kern" well_kern).
  vm_compute. reflexivity.
Defined.

(** ** Later files replace earlier ones *)






(** ** The index stays inside the envelope *)

(** X11.  Every bounding box of [index.json] lies inside the coordinate
    envelope and is well formed: its four bounds are finite numbers with
    [32 <= minLat <= maxLat <= 42] and
    [-125 <= minLon <= maxLon <= -114]. *)
Theorem index_bounds_in_envelope (rows : list row) (out : output) :
  process_wells rows = Ok out ->
  Forall (fun e =>
            exists a a' o o' : Q,
              Index.minLat (Index.bounds e) = FFin a
              /\ Index.maxLat (Index.bounds e) = FFin a'
              /\ Index.minLon (Index.bounds e) = FFin o
              /\ Index.maxLon (Index.bounds e) = FFin o'
              /\ (32 <= a)%Q /\ (a <= a')%Q /\ (a' <= 42)%Q
              /\ (-125 <= o)%Q /\ (o <= o')%Q /\ (o' <= -114)%Q)
         (index_json out).
Proof.
  intros H.
  destruct (process_wells_inv _ _ H) as (st & acc & Hs & Hw & _ & _).
  destruct (write_artifacts_inv _ _ Hw) as (_ & _ & _ & Hix).
  apply Forall_forall. intros e He.
  destruct (Forall2_elem_of_r _ _ _ _ Hix He) as ([c ws] & Hit & Hent).
  apply elem_of_sorted_items in Hit.
  pose proof (scan_bucket_in_envelope _ _ _ _ Hs Hit) as Henv.
  destruct (index_entry_tight _ _ _ Henv Hent)
    as (Hall & (w1 & Hw1 & E1) & (w2 & Hw2 & E2)
        & (w3 & Hw3 & E3) & (w4 & Hw4 & E4)).
  rewrite Forall_forall in Henv.
  destruct (Henv _ Hw1) as (a & ? & Ea & _ & Ha & _).
  destruct (Henv _ Hw2) as (a' & ? & Ea' & _ & _ & Ha' & _).
  destruct (Henv _ Hw3) as (? & o & _ & Eo & _ & _ & Ho & _).
  destruct (Henv _ Hw4) as (? & o' & _ & Eo' & _ & _ & _ & Ho').
  destruct (Hall _ Hw2) as (Hlat & _).
  destruct (Hall _ Hw4) as (_ & _ & Hlon & _).
  rewrite <- E1, Ea, Ea' in Hlat. rewrite <- E3, Eo, Eo' in Hlon.
  apply Qle_bool_iff in Hlat, Hlon.
  exists a, a', o, o'. rewrite <- E1, <- E2, <- E3, <- E4.
  repeat split; assumption.
Qed.

Lemma index_bounds_in_envelope_witness :
  exists out,
    process_wells sample_rows = Ok out
    /\ Forall (fun e =>
                 exists a a' o o' : Q,
                   Index.minLat (Index.bounds e) = FFin a
                   /\ Index.maxLat (Index.bounds e) = FFin a'
                   /\ Index.minLon (Index.bounds e) = FFin o
                   /\ Index.maxLon (Index.bounds e) = FFin o'
                   /\ (32 <= a)%Q /\ (a <= a')%Q /\ (a' <= 42)%Q
                   /\ (-125 <= o)%Q /\ (o <= o')%Q /\ (o' <= -114)%Q)
              (index_json out).
Proof.
  eexists. split; [vm_compute; reflexivity|].
  apply (index_bounds_in_envelope sample_rows). vm_compute. reflexivity.
Defined.

(** ** The documents depend on the buckets only *)

(** X12.  The three kinds of document are determined by the sequence of
    accepted records of each region.  Two inputs whose accepted rows
    give every region the same records in the same order produce the same
    summary, the same region files and the same index, however the rows
    of different regions are interleaved and whatever rows are skipped in
    between. *)
Theorem documents_depend_on_buckets (rows1 rows2 : list row)
    (acc1 acc2 : list (string * well)) (out1 out2 : output) :
  accepted rows1 = Ok acc1 -> accepted rows2 = Ok acc2 ->
  (forall c, bucket c acc1 = bucket c acc2) ->
  process_wells rows1 = Ok out1 -> process_wells rows2 = Ok out2 ->
  counties_json out1 = counties_json out2
  /\ county_files out1 = county_files out2
  /\ index_json out1 = index_json out2
  /\ directory out1 = directory out2.
Proof.
  intros Ha1 Ha2 Hb H1 H2.
  destruct (process_wells_inv _ _ H1) as (st1 & a1 & _ & Hw1 & Ha1' & Hr1).
  destruct (process_wells_inv _ _ H2) as (st2 & a2 & _ & Hw2 & Ha2' & Hr2).
  rewrite Ha1 in Ha1'. injection Ha1' as <-.
  rewrite Ha2 in Ha2'. injection Ha2' as <-.
  assert (Hm : wells_by_county st1 = wells_by_county st2).
  { apply map_eq. intros c.
    by rewrite (rep_wells _ _ _ Hr1 c), (rep_wells _ _ _ Hr2 c), Hb. }
  unfold write_artifacts, mbind, res_bind in Hw1, Hw2. rewrite Hm in Hw1.
  destruct (mapM_res county_summary _) as [cs|]; [|done].
  destruct (mapM_res index_entry _) as [ix|]; [|done].
  injection Hw1 as <-. injection Hw2 as <-. done.
Qed.

Lemma documents_depend_on_buckets_witness :
  exists out1 out2,
    process_wells sample_rows = Ok out1
    /\ process_wells [ row_zero_depth; row_kern; row_no_county_column;
                         row_depth_100; row_kern_zero ]
       = Ok out2
    /\ counties_json out1 = counties_json out2
    /\ county_files out1 = county_files out2
    /\ index_json out1 = index_json out2
    /\ directory out1 = directory out2.
Proof.
  eexists _, _. split; [vm_compute; reflexivity|].
  split; [vm_compute; reflexivity|].
  eapply (documents_depend_on_buckets sample_rows
            [ row_zero_depth; row_kern; row_no_county_column;
              row_depth_100; row_kern_zero ]).
  - vm_compute. reflexivity.
  - vm_compute. reflexivity.
  - intros c. unfold bucket. simpl.
    repeat (rewrite ?filter_cons, ?filter_nil; simpl).
    repeat case_decide; simplify_eq; reflexivity.
  - vm_compute. reflexivity.
  - vm_compute. reflexivity.
Defined.

(** ** The average depth lies between the extremes *)

Section Between.

Local Open Scope Q_scope.

Lemma int_double_small (z : Z) : (Z.abs z < 2 ^ 53)%Z -> int_double z.
Proof. intros H. exists z, 0%Z. repeat split; [lia|done|lia]. Qed.

Lemma int_double_opp (z : Z) : int_double z -> int_double (- z).
Proof.
  intros (m & x & Hx & Hm & ->). exists (- m)%Z, x.
  repeat split; [done|lia|lia].
Qed.

(** An integer a double can hold is a multiple of the unit of every
    binade up to its own. *)
Lemma int_double_on_grid (y x : Z) :
  int_double y -> (x <= 0 \/ 2 ^ (x + 52) <= Z.abs y)%Z ->
  exists n : Z, inject_Z y == inject_Z n * pow2 x.
Proof.
  intros (m & j & Hj & Hm & ->) Hx.
  destruct (Z.le_gt_cases x 0) as [H0|H0].
  - exists (m * 2 ^ j * 2 ^ (- x))%Z.
    assert (E : pow2 x == / inject_Z (2 ^ (- x))).
    { rewrite <- (Z.opp_involutive x) at 1. apply pow2_neg. lia. }
    assert (Hp : (0 < 2 ^ (- x))%Z) by (apply Z.pow_pos_nonneg; lia).
    assert (Hq : 0 < inject_Z (2 ^ (- x))).
    { change 0 with (inject_Z 0). by rewrite <- Zlt_Qlt. }
    rewrite E, (inject_Z_mult _ (2 ^ (- x))). field. lra.
  - destruct Hx as [Hx|Hx]; [lia|].
    assert (Hxj : (x <= j)%Z).
    { assert (Hlt : (2 ^ (x + 52) < 2 ^ (53 + j))%Z).
      { eapply Z.le_lt_trans; [exact Hx|].
        rewrite Z.abs_mul, (Z.abs_eq (2 ^ j)) by (apply Z.pow_nonneg; lia).
        rewrite Z.pow_add_r by lia.
        apply Z.mul_lt_mono_pos_r; [apply Z.pow_pos_nonneg; lia|done]. }
      apply Z.pow_lt_mono_r_iff in Hlt; lia. }
    exists (m * 2 ^ (j - x))%Z.
    rewrite (pow2_nonneg x) by lia. rewrite <- inject_Z_mult.
    apply inject_Z_injective || f_equiv.
    rewrite <- Z.mul_assoc, <- Z.pow_add_r by lia. do 2 f_equal. lia.
Qed.

Lemma Qround_half_even_ge (q : Q) (n : Z) :
  inject_Z n <= q -> (n <= Qround_half_even q)%Z.
Proof.
  intros H. by apply (Qround_half_even_bounds q n (Qceiling q));
    [|apply Qle_ceiling].
Qed.

Lemma Qround_half_even_le_int (q : Q) (n : Z) :
  q <= inject_Z n -> (Qround_half_even q <= n)%Z.
Proof.
  intros H. by apply (Qround_half_even_bounds q (Qfloor q) n);
    [apply Qfloor_le|].
Qed.

(** Rounding to 53 bits does not cross an integer that a double holds. *)
Lemma b64_round_le (q : Q) (y : Z) :
  0 < q -> int_double y -> q <= inject_Z y ->
  let x := Z.max (Qlog2_floor q - 52) (-1074) in
  inject_Z (Qround_half_even (q / pow2 x)) * pow2 x <= inject_Z y.
Proof.
  intros Hq Hy Hqy x.
  pose proof (pow2_pos x) as Hp.
  assert (Hgrid : (x <= 0 \/ 2 ^ (x + 52) <= Z.abs y)%Z).
  { destruct (Qlt_le_dec q 1) as [H1|H1].
    - left. pose proof (Qlog2_floor_lt1 q H1). lia.
    - right. destruct (Qlog2_floor_ge1 q H1) as (He & Hlo & _).
      assert (Hy2 : (2 ^ Qlog2_floor q <= y)%Z).
      { rewrite Zle_Qle. by eapply Qle_trans. }
      replace (x + 52)%Z with (Qlog2_floor q) by lia. lia. }
  destruct (int_double_on_grid y x Hy Hgrid) as (n & Hn).
  rewrite Hn. apply Qmult_le_compat_r; [|by apply Qlt_le_weak].
  rewrite <- Zle_Qle. apply Qround_half_even_le_int.
  apply Qle_shift_div_r; [done|]. by rewrite <- Hn.
Qed.

Lemma b64_round_ge (q : Q) (y : Z) :
  0 < q -> int_double y -> (0 < y)%Z -> inject_Z y <= q ->
  let x := Z.max (Qlog2_floor q - 52) (-1074) in
  inject_Z y <= inject_Z (Qround_half_even (q / pow2 x)) * pow2 x.
Proof.
  intros Hq Hy Hy0 Hyq x.
  pose proof (pow2_pos x) as Hp.
  assert (H1 : 1 <= q).
  { eapply Qle_trans; [|exact Hyq]. change 1 with (inject_Z 1).
    rewrite <- Zle_Qle. lia. }
  destruct (Qlog2_floor_ge1 q H1) as (He & Hlo & _).
  assert (Ex : x = (Qlog2_floor q - 52)%Z) by lia.
  destruct (Z.le_gt_cases (2 ^ Qlog2_floor q) y) as [Hc|Hc].
  - destruct (int_double_on_grid y x Hy) as (n & Hn).
    { right. replace (x + 52)%Z with (Qlog2_floor q) by lia. lia. }
    rewrite Hn. apply Qmult_le_compat_r; [|by apply Qlt_le_weak].
    rewrite <- Zle_Qle. apply Qround_half_even_ge.
    apply Qle_shift_div_l; [done|]. by rewrite <- Hn.
  - assert (E : inject_Z (2 ^ 52) * pow2 x == inject_Z (2 ^ Qlog2_floor q)).
    { rewrite <- (pow2_nonneg 52), <- (pow2_nonneg (Qlog2_floor q)) by lia.
      unfold pow2. rewrite <- Qpower_plus by discriminate.
      by replace (52 + x)%Z with (Qlog2_floor q) by lia. }
    apply Qle_trans with (inject_Z (2 ^ Qlog2_floor q)).
    + rewrite <- Zle_Qle. lia.
    + rewrite <- E. apply Qmult_le_compat_r; [|by apply Qlt_le_weak].
      rewrite <- Zle_Qle. apply Qround_half_even_ge.
      apply Qle_shift_div_l; [done|]. by rewrite E.
Qed.

(** The double nearest to [q], read back as an integer by [round], stays
    between any two integers that doubles hold and that enclose [q]. *)
Lemma b64_of_Q_round_between (neg : bool) (q : Q) (m : pyfloat)
    (lo hi r : Z) :
  0 <= q -> int_double lo -> int_double hi ->
  inject_Z lo <= (if neg then - q else q) ->
  (if neg then - q else q) <= inject_Z hi ->
  b64_of_Q neg q = m -> py_round m = Ok r -> (lo <= r <= hi)%Z.
Proof.
  intros Hq0 Hlo Hhi Hl Hh Hm Hr. unfold b64_of_Q in Hm.
  destruct (Qle_bool q 0) eqn:E0.
  - apply Qle_bool_iff in E0.
    assert (Eq : q == 0) by (by apply Qle_antisym).
    assert (r = 0%Z) as ->.
    { subst m. destruct neg; simpl in Hr; by injection Hr as <-. }
    rewrite !Zle_Qle. change (inject_Z 0) with 0.
    destruct neg; split; lra.
  - assert (Hq : 0 < q).
    { apply Qnot_le_lt. intros H. apply Qle_bool_iff in H. congruence. }
    pose proof (b64_round_core q Hq) as (_ & Hv0 & _).
    pose proof (b64_round_le q) as Hle. pose proof (b64_round_ge q) as Hge.
    cbv zeta in Hm, Hv0, Hle, Hge.
    set (x := Z.max (Qlog2_floor q - 52) (-1074)) in *.
    set (m0 := Qround_half_even (q / pow2 x)) in *.
    set (v := inject_Z m0 * pow2 x) in *.
    assert (Er : r = Qround_half_even (if neg then - v else v)).
    { destruct (Z.eqb_spec m0 0) as [Em|_].
      - assert (Ev : v == 0) by (unfold v; rewrite Em; ring).
        subst m. destruct neg; simpl in Hr; injection Hr as <-.
        + symmetry. apply (Qround_half_even_comp (- v) 0). by rewrite Ev.
        + symmetry. by apply (Qround_half_even_comp v 0).
      - destruct (Qle_bool (pow2 1024) (Qred v)); subst m; [done|].
        simpl in Hr. injection Hr as <-.
        apply Qround_half_even_comp.
        destruct neg; by rewrite Qred_correct. }
    rewrite Er. apply Qround_half_even_bounds.
    + destruct neg.
      * assert (v <= inject_Z (- lo)).
        { apply Hle; [done|by apply int_double_opp|].
          rewrite inject_Z_opp. lra. }
        rewrite inject_Z_opp in *. lra.
      * destruct (Z.le_gt_cases lo 0) as [H0|H0].
        -- apply Qle_trans with 0; [|done].
           change 0 with (inject_Z 0). by rewrite <- Zle_Qle.
        -- by apply Hge.
    + destruct neg.
      * destruct (Z.le_gt_cases 0 hi) as [H0|H0].
        -- apply Qle_trans with 0.
           ++ lra.
           ++ change 0 with (inject_Z 0). by rewrite <- Zle_Qle.
        -- assert (inject_Z (- hi) <= v).
           { apply Hge; [done|by apply int_double_opp|lia|].
             rewrite inject_Z_opp. lra. }
           rewrite inject_Z_opp in *. lra.
      * by apply Hle.
Qed.

(** [round(a / b)] for integers stays between two integers that doubles
    hold and that enclose the quotient. *)
Lemma py_truediv_round_between (a b lo hi r : Z) (m : pyfloat) :
  (0 < b)%Z -> (lo * b <= a <= hi * b)%Z ->
  int_double lo -> int_double hi ->
  py_truediv a b = Ok m -> py_round m = Ok r -> (lo <= r <= hi)%Z.
Proof.
  intros Hb [Hl Hh] Hlo Hhi Hm Hr. unfold py_truediv in Hm.
  destruct (Z.eqb_spec b 0) as [|_]; [lia|].
  replace (b <? 0)%Z with false in Hm by (symmetry; apply Z.ltb_ge; lia).
  rewrite xorb_false_r in Hm.
  set (q := Z.abs a # Z.to_pos (Z.abs b)) in *.
  assert (Eb : Z.pos (Z.to_pos (Z.abs b)) = b) by lia.
  assert (Hq0 : 0 <= q) by (unfold Qle, q; simpl; lia).
  assert (Hs : inject_Z lo <= (if (a <? 0)%Z then - q else q)
               /\ (if (a <? 0)%Z then - q else q) <= inject_Z hi).
  { destruct (Z.ltb_spec a 0); unfold Qle, q; simpl; rewrite Eb; lia. }
  destruct Hs as [Hs1 Hs2].
  eapply (b64_of_Q_round_between (a <? 0)%Z q m lo hi r); try done.
  destruct (b64_of_Q (a <? 0)%Z q); congruence.
Qed.

Lemma truncation_of_integer (v : Q) (n : Z) :
  v == inject_Z n -> Z.quot (Qnum v) (Z.pos (Qden v)) = n.
Proof.
  destruct v as [p d]. unfold Qeq. simpl. intros H.
  rewrite Z.mul_1_r in H. rewrite H. by apply Z.quot_mul.
Qed.

Lemma int_double_pow2_mul (m x : Z) :
  (0 <= x)%Z -> (Z.abs m <= 2 ^ 53)%Z -> int_double (m * 2 ^ x).
Proof.
  intros Hx Hm. destruct (Z.eq_dec (Z.abs m) (2 ^ 53)%Z) as [E|E].
  - assert (Em : (m = 2 ^ 52 * 2 \/ m = - 2 ^ 52 * 2)%Z) by lia.
    destruct Em as [-> | ->].
    + exists (2 ^ 52)%Z, (x + 1)%Z. rewrite Z.pow_add_r by lia.
      split; [lia|split; [reflexivity|ring]].
    + exists (- 2 ^ 52)%Z, (x + 1)%Z. rewrite Z.pow_add_r by lia.
      split; [lia|split; [reflexivity|ring]].
  - exists m, x. repeat split; [done|lia].
Qed.

(** The integer part of a double is an integer that a double holds. *)
Lemma b64_of_Q_int_double (neg : bool) (q v : Q) :
  b64_of_Q neg q = FFin v ->
  int_double (Z.quot (Qnum v) (Z.pos (Qden v))).
Proof.
  assert (Hz : forall n, signed_zero n = FFin v ->
                 int_double (Z.quot (Qnum v) (Z.pos (Qden v)))).
  { intros [|]; simpl; [done|]. intros [= <-]. by apply int_double_small. }
  unfold b64_of_Q.
  destruct (Qle_bool q 0) eqn:E0; [apply Hz|].
  assert (Hq : 0 < q).
  { apply Qnot_le_lt. intros H. apply Qle_bool_iff in H. congruence. }
  pose proof (b64_round_core q Hq) as (Hm0 & Hv0 & _).
  pose proof (b64_round_le q) as Hle. cbv zeta in Hv0, Hm0, Hle |- *.
  set (x := Z.max (Qlog2_floor q - 52) (-1074)) in *.
  set (m0 := Qround_half_even (q / pow2 x)) in *.
  set (v0 := inject_Z m0 * pow2 x) in *.
  destruct (m0 =? 0)%Z; [apply Hz|].
  destruct (Qle_bool (pow2 1024) (Qred v0)); [done|].
  intros [= <-].
  assert (Hsmall : forall M : Z, (M < 2 ^ 53)%Z -> v0 <= inject_Z M ->
            int_double
              (Z.quot (Qnum (if neg then - Qred v0 else Qred v0))
                      (Z.pos (Qden (if neg then - Qred v0 else Qred v0))))).
  { intros M HM Hv. apply int_double_small.
    eapply Z.le_lt_trans; [|exact HM]. apply truncation_bound.
    destruct neg.
    - rewrite Qabs_opp, Qred_correct, Qabs_pos; done.
    - rewrite Qred_correct, Qabs_pos; done. }
  destruct (Qlt_le_dec q 1) as [H1|H1].
  - apply (Hsmall 1%Z); [done|].
    apply Hle; [done|by apply int_double_small|by apply Qlt_le_weak].
  - destruct (Qlog2_floor_ge1 q H1) as (He & _ & Hhi).
    assert (Hv : v0 <= inject_Z (2 ^ (Qlog2_floor q + 1))).
    { apply Hle; [done| |by apply Qlt_le_weak].
      exists 1%Z, (Qlog2_floor q + 1)%Z. split; [lia|split; [reflexivity|lia]]. }
    destruct (Z.le_gt_cases 52 (Qlog2_floor q)) as [Hc|Hc].
    + assert (Ex : (0 <= x)%Z) by lia.
      assert (Ev : v0 == inject_Z (m0 * 2 ^ x)).
      { unfold v0. by rewrite inject_Z_mult, (pow2_nonneg x). }
      assert (Hm53 : (m0 <= 2 ^ 53)%Z).
      { rewrite Ev, <- Zle_Qle in Hv.
        replace (Qlog2_floor q + 1)%Z with (53 + x)%Z in Hv by lia.
        rewrite Z.pow_add_r in Hv by lia.
        apply Z.mul_le_mono_pos_r in Hv; [done|].
        apply Z.pow_pos_nonneg; lia. }
      destruct neg.
      * rewrite (truncation_of_integer _ (- m0 * 2 ^ x)).
        -- apply int_double_pow2_mul; [done|lia].
        -- rewrite Qred_correct, Ev, <- inject_Z_opp. f_equiv. lia.
      * rewrite (truncation_of_integer _ (m0 * 2 ^ x)).
        -- apply int_double_pow2_mul; [done|lia].
        -- by rewrite Qred_correct.
    + apply (Hsmall (2 ^ 52)%Z); [done|].
      eapply Qle_trans; [exact Hv|]. rewrite <- Zle_Qle.
      apply Z.pow_le_mono_r; lia.
Qed.

Lemma py_float_int_double (s : string) (q : Q) :
  py_float s = Ok (FFin q) ->
  int_double (Z.quot (Qnum q) (Z.pos (Qden q))).
Proof.
  unfold py_float.
  destruct (PyStr.drop_underscores _) as [u|]; [|done].
  destruct (parse_decimal u) as [[[neg mant] e10]|].
  - intros [= H]. by eapply b64_of_Q_int_double.
  - unfold parse_inf_or_nan. destruct (PyStr.split_sign u) as [neg r].
    destruct (_ || _); [done|]. by destruct (String.eqb _ _).
Qed.

End Between.

Lemma parse_int_int_double (val : option string) (d : Z) :
  parse_int val = Ok (Some d) -> int_double d.
Proof.
  unfold parse_int, try_except, mbind, res_bind.
  destruct val as [v|]; [|done].
  destruct (_ && _); [|done].
  destruct (py_float v) as [x|e] eqn:E.
  - destruct x as [|neg| |q]; simpl; try done.
    + intros [= <-]. by apply int_double_small.
    + intros [= <-]. by eapply py_float_int_double.
  - by destruct (ValueError_or_TypeError e).
Qed.

Lemma accepted_depth_int_double (r : row) (c : string) (w : well) (d : Z) :
  normalize_row r = Ok (Some (c, w)) -> depth w = Some d -> int_double d.
Proof.
  intros H Hd. destruct (normalize_row_accept_inv _ _ _ H)
    as [_ _ (td & cd & Ht & Hc & Hw) _ _ _ _].
  rewrite Hw in Hd. unfold py_or in Hd.
  destruct (int_truthy cd); subst; by eapply parse_int_int_double.
Qed.

Lemma py_sum_between (lo hi : Z) (ds : list Z) :
  Forall (Z.le lo) ds -> Forall (fun d => (d <= hi)%Z) ds ->
  (lo * Z.of_nat (length ds) <= py_sum ds <= hi * Z.of_nat (length ds))%Z.
Proof.
  unfold py_sum. intros Hlo Hhi.
  assert (G : forall a, (a + lo * Z.of_nat (length ds) <= foldl Z.add a ds
                         <= a + hi * Z.of_nat (length ds))%Z).
  { induction ds as [|d ds IH]; intros a; simpl; [lia|].
    apply Forall_cons in Hlo as [? Hlo]. apply Forall_cons in Hhi as [? Hhi].
    specialize (IH Hlo Hhi (a + d)%Z). lia. }
  specialize (G 0%Z). lia.
Qed.

(** X13.  In every entry of [counties.json] the three depth statistics
    are absent together or present together, and when present the
    average lies between the minimum and the maximum: the rounding of
    the quotient to a double and then to an integer never carries it
    past a sampled depth. *)
Theorem average_between_extremes (rows : list row) (out : output) :
  process_wells rows = Ok out ->
  Forall (fun s =>
            match Summary.minDepth s, Summary.avgDepth s,
                  Summary.maxDepth s with
            | Some lo, Some a, Some hi => (lo <= a <= hi)%Z
            | None, None, None => True
            | _, _, _ => False
            end)
         (counties_json out).
Proof.
  intros H.
  destruct (process_wells_inv _ _ H) as (st & acc & _ & Hw & Ha & Hrep).
  destruct (write_artifacts_inv _ _ Hw) as (_ & Hcs & _ & _).
  apply Forall_forall. intros s Hs.
  destruct (Forall2_elem_of_r _ _ _ _ Hcs Hs) as ([c ws] & Hit & Hsum).
  apply elem_of_sorted_items in Hit.
  rewrite (rep_wells _ _ _ Hrep c) in Hit.
  destruct (decide (bucket c acc = [])) as [|_]; [done|].
  injection Hit as <-.
  assert (Hdbl : forall d, d ∈ true_depths (bucket c acc) -> int_double d).
  { intros d Hd. apply true_depths_subset in Hd as (w & Hw' & Hd).
    apply elem_of_bucket in Hw'.
    destruct (accepted_inv _ _ _ Ha Hw') as (r & _ & Hn).
    by eapply accepted_depth_int_double. }
  apply county_summary_statistics in Hsum as (_ & _ & Hst).
  unfold depth_statistics in Hst.
  destruct (true_depths (bucket c acc)) as [|d0 ds0] eqn:E.
  - by destruct Hst as (-> & -> & ->).
  - destruct Hst as ((m & a & Hm & Hr & ->) & (lo & -> & Hlo & Hall)
                     & (hi & -> & Hhi & Hall')).
    eapply py_truediv_round_between; [| |by apply Hdbl..|exact Hm|exact Hr].
    + simpl. lia.
    + by apply py_sum_between.
Qed.

Lemma average_between_extremes_witness :
  exists out,
    process_wells sample_rows = Ok out
    /\ Forall (fun s =>
                 match Summary.minDepth s, Summary.avgDepth s,
                       Summary.maxDepth s with
                 | Some lo, Some a, Some hi => (lo <= a <= hi)%Z
                 | None, None, None => True
                 | _, _, _ => False
                 end)
              (counties_json out).
Proof.
  eexists. split; [vm_compute; reflexivity|].
  apply (average_between_extremes sample_rows). vm_compute. reflexivity.
Defined.

(** ** Precision of the stored coordinates *)

Section Precision.

Local Open Scope Q_scope.

Lemma Qround_half_even_near (y : Q) :
  Qabs (inject_Z (Qround_half_even y) - y) <= 1 # 2.
Proof.
  apply Qabs_Qle_condition.
  pose proof (Qfloor_le y) as Hf. pose proof (Qlt_floor y) as Hc.
  rewrite inject_Z_plus in Hc. change (inject_Z 1) with 1 in Hc.
  unfold Qround_half_even.
  destruct (Qcompare_spec (y - inject_Z (Qfloor y)) (1 # 2)) as [E|L|G].
  - destruct (Z.even (Qfloor y)).
    + split; lra.
    + rewrite inject_Z_plus. change (inject_Z 1) with 1. split; lra.
  - split; lra.
  - rewrite inject_Z_plus. change (inject_Z 1) with 1. split; lra.
Qed.

(** Rounding a magnitude below [2^(e+1)] to binary64 moves it by at most
    half a unit in the last place of that binade. *)
Lemma b64_of_Q_near (neg : bool) (q v : Q) (e : Z) :
  1 <= q -> q < inject_Z (2 ^ (e + 1)) ->
  b64_of_Q neg q = FFin v ->
  Qabs (v - (if neg then - q else q)) <= pow2 (e - 53).
Proof.
  intros H1 He.
  destruct (Qlog2_floor_ge1 q H1) as (He0 & Hlo & _).
  assert (Hee : (Qlog2_floor q <= e)%Z).
  { assert (Hlt : (2 ^ Qlog2_floor q < 2 ^ (e + 1))%Z).
    { rewrite Zlt_Qlt. by eapply Qle_lt_trans. }
    destruct (Z.le_gt_cases 0 (e + 1)) as [Hn|Hn].
    - apply Z.pow_lt_mono_r_iff in Hlt; lia.
    - rewrite (Z.pow_neg_r 2 (e + 1)) in Hlt by lia.
      pose proof (Z.pow_nonneg 2 (Qlog2_floor q)). lia. }
  unfold b64_of_Q.
  destruct (Qle_bool q 0) eqn:E0.
  { apply Qle_bool_iff in E0. lra. }
  rewrite Z.max_l by lia.
  set (x := (Qlog2_floor q - 52)%Z).
  set (m0 := Qround_half_even (q / pow2 x)).
  set (v0 := inject_Z m0 * pow2 x).
  pose proof (pow2_pos x) as Hp.
  assert (Hv0 : Qabs (v0 - q) <= pow2 (e - 53)).
  { assert (Ed : v0 - q == (inject_Z m0 - q / pow2 x) * pow2 x).
    { unfold v0. field. lra. }
    rewrite Ed, Qabs_Qmult, (Qabs_pos (pow2 x)) by lra.
    apply Qle_trans with ((1 # 2) * pow2 x).
    - apply Qmult_le_compat_r; [apply Qround_half_even_near|lra].
    - assert (Eh : (1 # 2) * pow2 x == pow2 (x - 1)).
      { unfold pow2. rewrite Qpower_minus by discriminate. 
        change (2 ^ 1) with 2. field. }
      rewrite Eh. apply pow2_le. lia. }
  intros Hv.
  assert (Ev : v == if neg then - v0 else v0).
  { destruct (Z.eqb_spec m0 0) as [Em|_].
    - assert (v0 == 0) as Ez by (unfold v0; rewrite Em; ring).
      destruct neg; simpl in Hv; [done|]. injection Hv as <-. by rewrite Ez.
    - destruct (Qle_bool (pow2 1024) (Qred v0)); [done|].
      injection Hv as <-. destruct neg; by rewrite Qred_correct. }
  rewrite Ev. destruct neg; [|done].
  assert (Eo : - v0 - - q == - (v0 - q)) by ring.
  by rewrite Eo, Qabs_opp.
Qed.

(** [round(x, 5)] moves [x] by at most half a unit of the fifth decimal
    and half a unit in the last place. *)
Lemma py_round_5_near (q v : Q) (a b e : Z) :
  (1 <= a)%Z -> (b < 2 ^ (e + 1))%Z ->
  inject_Z a <= Qabs q -> Qabs q <= inject_Z b ->
  py_round_ndigits (FFin q) 5 = Ok (FFin v) ->
  Qabs (v - q) <= (1 # 200000) + pow2 (e - 53).
Proof.
  intros Ha Hb Hqa Hqb.
  unfold py_round_ndigits.
  change (323 <? 5)%Z with false. change (5 <? -308)%Z with false.
  cbv iota zeta.
  set (neg := Qle_bool q 0 && negb (Qle_bool 0 q)).
  set (k := Qround_half_even (Qabs q * pow10 5)).
  set (q' := inject_Z k * pow10 (- (5))).
  assert (Hk : (a * 10 ^ 5 <= k <= b * 10 ^ 5)%Z).
  { unfold k.
    rewrite (Qround_half_even_comp _ (Qabs q * inject_Z (10 ^ 5))).
    - apply round_scaled_bounds; [lia|done..].
    - by rewrite (pow10_nonneg 5). }
  assert (Hu : inject_Z a <= q' /\ q' <= inject_Z b).
  { unfold q'. rewrite (pow10_neg 5) by lia. apply unscale_bounds; [lia|done]. }
  destruct Hu as [Hu1 Hu2].
  assert (Hdec : Qabs (q' - Qabs q) <= 1 # 200000).
  { assert (Ed : q' - Qabs q
                 == (inject_Z k - Qabs q * pow10 5) * (1 # 100000)).
    { unfold q'. change (pow10 (- (5))) with (1 # 100000).
      change (pow10 5) with (100000 # 1). ring. }
    rewrite Ed, Qabs_Qmult. change (Qabs (1 # 100000)) with (1 # 100000).
    pose proof (Qround_half_even_near (Qabs q * pow10 5)) as Hn.
    fold k in Hn. lra. }
  intros Hr.
  assert (Hv : b64_of_Q neg q' = FFin v).
  { destruct (b64_of_Q neg q'); congruence. }
  apply (b64_of_Q_near _ _ _ e) in Hv.
  2: { eapply Qle_trans; [|exact Hu1]. change 1 with (inject_Z 1).
       by rewrite <- Zle_Qle. }
  2: { eapply Qle_lt_trans; [exact Hu2|]. by rewrite <- Zlt_Qlt. }
  assert (Es : q == if neg then - Qabs q else Qabs q).
  { unfold neg. destruct (Qle_bool q 0) eqn:E1; simpl.
    - apply Qle_bool_iff in E1. destruct (Qle_bool 0 q) eqn:E2; simpl.
      + apply Qle_bool_iff in E2. rewrite Qabs_pos by done. reflexivity.
      + rewrite Qabs_neg by done. ring.
    - assert (0 < q).
      { apply Qnot_le_lt. intros H. apply Qle_bool_iff in H. congruence. }
      rewrite Qabs_pos by lra. reflexivity. }
  assert (Et : v - q == (v - (if neg then - q' else q'))
                        + (if neg then - (q' - Qabs q) else q' - Qabs q)).
  { rewrite Es at 1. destruct neg; ring. }
  rewrite Et. eapply Qle_trans; [apply Qabs_triangle|].
  assert (Qabs (if neg then - (q' - Qabs q) else q' - Qabs q)
          <= 1 # 200000).
  { destruct neg; [by rewrite Qabs_opp|done]. }
  lra.
Qed.

End Precision.

(** X14.  The coordinates stored in a record differ from the coordinates
    read from the row by at most half a unit of the fifth decimal, up to
    the rounding of the result to a double: by at most
    [0.000005 + 2^-48] degrees of latitude and [0.000005 + 2^-47] degrees
    of longitude. *)
Theorem stored_coordinates_precision (r : row) (c : string) (w : well) :
  normalize_row r = Ok (Some (c, w)) ->
  exists qa qo va vo : Q,
    parse_float (row_get r "DECIMALLATITUDE") = Ok (Some (FFin qa))
    /\ parse_float (row_get r "DECIMALLONGITUDE") = Ok (Some (FFin qo))
    /\ lat w = FFin va /\ lon w = FFin vo
    /\ (Qabs (va - qa) <= (1 # 200000) + pow2 (-48))%Q
    /\ (Qabs (vo - qo) <= (1 # 200000) + pow2 (-47))%Q.
Proof.
  intros H.
  pose proof (accepted_in_envelope _ _ _ H) as (va & vo & Eva & Evo & _).
  destruct (normalize_row_accept_inv _ _ _ H)
    as [(la & Hla & Hea & Hra) (lo & Hlo & Heo & Hro) _ _ _ _ _].
  apply lat_in_envelope_spec in Hea as (qa & -> & Ha1 & Ha2).
  apply lon_in_envelope_spec in Heo as (qo & -> & Ho1 & Ho2).
  exists qa, qo, va, vo. rewrite Eva in Hra. rewrite Evo in Hro.
  repeat split; try done.
  - apply (py_round_5_near qa va 32 42 5); [lia|lia| | |done].
    + rewrite Qabs_pos by lra. done.
    + rewrite Qabs_pos by lra. done.
  - apply (py_round_5_near qo vo 114 125 6); [lia|lia| | |done].
    + rewrite Qabs_neg by lra. unfold inject_Z. lra.
    + rewrite Qabs_neg by lra. unfold inject_Z. lra.
Qed.

Lemma stored_coordinates_precision_witness :
  exists qa qo va vo : Q,
    parse_float (row_get row_kern "DECIMALLATITUDE") = Ok (Some (FFin qa))
    /\ parse_float (row_get row_kern "DECIMALLONGITUDE")
       = Ok (Some (FFin qo))
    /\ lat well_kern = FFin va /\ lon well_kern = FFin vo
    /\ (Qabs (va - qa) <= (1 # 200000) + pow2 (-48))%Q
    /\ (Qabs (vo - qo) <= (1 # 200000) + pow2 (-47))%Q.
Proof.
  apply (stored_coordinates_precision row_kern "Kern" well_kern).
  vm_compute. reflexivity.
Defined.
